(** * T11: session provider (AuthContext.jsx) and CORS gate (index.js)

    A shallow embedding of the two source files and the properties of
    their session lifecycle and origin admission policy. *)

From Stdlib Require Import NArith ZArith Ascii String DecimalString List Bool Lia.
From stdpp Require Import base decidable option list countable gmap.
Import ListNotations.

Local Open Scope N_scope.
Local Set Warnings "-register-all".

(** ** JavaScript strings

    A JavaScript string is a sequence of UTF-16 code units; a code unit is
    kept as an [N] below 65536.  Nothing here depends on the bound. *)
Module JS.

Definition jsstring : Type := list N.

(** The code units of an ASCII literal. *)
Definition js (s : string) : jsstring :=
  List.map N_of_ascii (list_ascii_of_string s).

Definition slash : N := 47.
Definition comma : N := 44.

(** [WhiteSpace] and [LineTerminator] of ECMA-262, the code units that
    [String.prototype.trim] removes. *)
Definition is_white_space (c : N) : bool :=
  (c =? 9) || (c =? 10) || (c =? 11) || (c =? 12) || (c =? 13)
  || (c =? 32) || (c =? 160) || (c =? 5760)
  || ((8192 <=? c) && (c <=? 8202))
  || (c =? 8232) || (c =? 8233) || (c =? 8239) || (c =? 8287)
  || (c =? 12288) || (c =? 65279).

#[global] Arguments is_white_space : simpl never.

(** [s.trimStart()] *)
Fixpoint trimStart (s : jsstring) : jsstring :=
  match s with
  | [] => []
  | c :: s' => if is_white_space c then trimStart s' else s
  end.

(** [s.trimEnd()] *)
Definition trimEnd (s : jsstring) : jsstring := rev (trimStart (rev s)).

(** [s.trim()] *)
Definition trim (s : jsstring) : jsstring := trimEnd (trimStart s).

(** [s.replace(/\/$/, "")]: without the [m] flag [$] matches at the end of
    the input only, so at most the last code unit is removed. *)
Definition replace_trailing_slash (s : jsstring) : jsstring :=
  match rev s with
  | c :: r => if c =? slash then rev r else s
  | [] => s
  end.

(** [s.startsWith("/")] *)
Definition startsWith_slash (s : jsstring) : bool :=
  match s with
  | c :: _ => c =? slash
  | [] => false
  end.

(** [s.split(",")]: never the empty array, the empty string gives [[""]]. *)
Fixpoint split_comma (s : jsstring) : list jsstring :=
  match s with
  | [] => [[]]
  | c :: s' =>
      if c =? comma then [] :: split_comma s'
      else match split_comma s' with
           | h :: t => (c :: h) :: t
           | [] => [[c]]
           end
  end.

(** A path after its leading slash, when it has one. *)
Definition without_leading_slash (path : jsstring) : jsstring :=
  match path with
  | c :: rest => if c =? slash then rest else path
  | [] => []
  end.

(** Truthiness of a string: every string but the empty one. *)
Definition nonempty (s : jsstring) : bool :=
  match s with [] => false | _ :: _ => true end.

(** The first code unit of a string is not white space (true of the empty
    string). *)
Definition starts_clean (s : jsstring) : Prop :=
  match s with
  | c :: _ => is_white_space c = false
  | [] => True
  end.

(** The last code unit of a string is neither a slash nor white space
    (true of the empty string). *)
Definition ends_clean (s : jsstring) : bool :=
  match rev s with
  | c :: _ => negb (c =? slash) && negb (is_white_space c)
  | [] => true
  end.

End JS.
Import JS.

(** ** The server-side gate, [backend/index.js] *)
Module Backend.

Definition DEFAULT_ALLOWED_ORIGINS : list jsstring :=
  [ js "http://localhost:5173";
    js "http://127.0.0.1:5173";
    js "http://localhost:4173";
    js "http://127.0.0.1:4173" ].

(** [sanitizeOrigin]: the argument is a string or [undefined] ([None]); every
    value that is not a string gives the empty string. *)
Definition sanitizeOrigin (origin : option jsstring) : jsstring :=
  match origin with
  | None => []
  | Some s => replace_trailing_slash (trim s)
  end.

(** [(process.env.FRONTEND_URL || "").split(",").map(sanitizeOrigin)
      .filter((origin) => origin.length > 0)] *)
Definition configuredOrigins (FRONTEND_URL : option jsstring) : list jsstring :=
  List.filter nonempty
    (List.map (fun s => sanitizeOrigin (Some s))
       (split_comma (default [] FRONTEND_URL))).

Definition defaultOrigins : list jsstring :=
  List.map (fun s => sanitizeOrigin (Some s)) DEFAULT_ALLOWED_ORIGINS.

(** [new Set([...defaultOrigins, ...configuredOrigins])] *)
Definition allowedOrigins (FRONTEND_URL : option jsstring) : gset jsstring :=
  list_to_set (defaultOrigins ++ configuredOrigins FRONTEND_URL).

(** [configuredOrigins.length === 0] *)
Definition allowAllOrigins (FRONTEND_URL : option jsstring) : bool :=
  match configuredOrigins FRONTEND_URL with [] => true | _ :: _ => false end.

(** What the [origin] option of [cors] passes to its callback. *)
Inductive verdict : Type :=
| Allow                      (* callback(null, true) *)
| Deny (message : jsstring). (* callback(new Error(message)) *)

(** [!origin]: [undefined] and the empty string are falsy. *)
Definition falsy_origin (origin : option jsstring) : bool :=
  match origin with
  | None => true
  | Some s => negb (nonempty s)
  end.

(** The [origin] callback handed to [cors]; [origin] is the request's
    [Origin] header. *)
Definition origin_callback (FRONTEND_URL origin : option jsstring) : verdict :=
  let normalizedOrigin := sanitizeOrigin origin in
  if falsy_origin origin
     || allowAllOrigins FRONTEND_URL
     || bool_decide (normalizedOrigin ∈ allowedOrigins FRONTEND_URL)
  then Allow
  else Deny (js "Not allowed by CORS").

(** *** The middleware stack

    [app.use] appends to a stack that Express runs in order.  A
    middleware hands the request on ([next()]), ends the response, or
    fails ([next(err)]); after a failure no further middleware or route
    handler runs. *)
Section App.
Context {request response : Type}.

Inductive outcome : Type :=
| Next (req : request)
| Respond (res : response)
| Failure (message : jsstring).

Definition middleware : Type := request → outcome.

Fixpoint run_stack (stack : list middleware) (req : request) : outcome :=
  match stack with
  | [] => Next req
  | m :: rest =>
      match m req with
      | Next req' => run_stack rest req'
      | Respond res => Respond res
      | Failure message => Failure message
      end
  end.

(** [req.headers.origin], and what the [cors] package does with a
    request whose origin the callback allowed (it sets the response
    headers, then ends a preflight or calls [next()]). *)
Variable origin_header : request → option jsstring.
Variable cors_allowed : middleware.

(** [cors({ origin: ..., credentials: true })] *)
Definition cors (FRONTEND_URL : option jsstring) : middleware :=
  fun req =>
    match origin_callback FRONTEND_URL (origin_header req) with
    | Allow => cors_allowed req
    | Deny message => Failure message
    end.

(** [express.json()] and the router of [routes.js]. *)
Variable express_json : middleware.
Variable routes : middleware.

(** [app.use(cors(...)); app.use(express.json()); app.use('', routes);] *)
Definition app (FRONTEND_URL : option jsstring) : middleware :=
  run_stack [cors FRONTEND_URL; express_json; routes].

End App.

End Backend.

(** ** The session provider, [frontend/src/contexts/AuthContext.jsx] *)
Module Frontend.

(** What the embedding leaves to the JavaScript engine: IEEE doubles, of
    which the provider only tests truthiness and takes the string, and the
    text of the [TypeError] raised by reading a property of [undefined]
    ([true]) or of [null] ([false]). *)
Class Engine : Type := {
  number : Type;
  number_truthy : number → bool;
  number_ToString : number → jsstring;
  TypeError_message : bool → jsstring → jsstring
}.

Section Provider.
Context {engine : Engine}.

(** The values [JSON.parse] produces, and [undefined]. *)
Inductive value : Type :=
| VUndefined
| VNull
| VBool (b : bool)
| VNumber (n : number)
| VString (s : jsstring)
| VArray (elements : list value)
| VObject (properties : gmap jsstring value).

(** [ToBoolean] *)
Definition truthy (v : value) : bool :=
  match v with
  | VUndefined | VNull => false
  | VBool b => b
  | VNumber n => number_truthy n
  | VString s => nonempty s
  | VArray _ | VObject _ => true
  end.

(** [a || b] *)
Definition or_else (a b : value) : value := if truthy a then a else b.

(** [Array.prototype.join] with the separator [","]. *)
Fixpoint join_comma (l : list jsstring) : jsstring :=
  match l with
  | [] => []
  | [s] => s
  | s :: l' => s ++ comma :: join_comma l'
  end.

(** [ToString] of a parsed value: an array joins its elements, with
    [null] and [undefined] as empty strings; a plain object is
    ["[object Object]"].  This is the string of every value in which no
    object has a property named [toString]; on an object that has one, and
    on an array that holds one, the conversion throws, which is not
    modelled. *)
Fixpoint ToString (v : value) : jsstring :=
  match v with
  | VUndefined => js "undefined"
  | VNull => js "null"
  | VBool true => js "true"
  | VBool false => js "false"
  | VNumber n => number_ToString n
  | VString s => s
  | VArray vs =>
      join_comma
        (List.map (fun x => match x with
                            | VUndefined | VNull => []
                            | _ => ToString x
                            end) vs)
  | VObject _ => js "[object Object]"
  end.

(** A thrown [Error] object; the provider reads its [message] only. *)
Record error : Type := Error { message : jsstring }.

(** How a promise settles. *)
Inductive settled (A : Type) : Type :=
| Fulfilled (a : A)
| Rejected (e : error).
#[global] Arguments Fulfilled {A} a.
#[global] Arguments Rejected {A} e.

(** A [fetch] call: the URL and the [init] object. [body] is the value
    handed to [JSON.stringify]. *)
Record request : Type := {
  url : jsstring;
  method : jsstring;
  headers : list (jsstring * jsstring);
  body : option value
}.

(** A [Response]: its [ok] flag and how [response.json()] settles (it
    rejects on a body that is not JSON). *)
Record response : Type := {
  ok : bool;
  json : settled value
}.

(** Build-time and browser configuration read by [resolveBackendUrl].
    [window] is [None] when [typeof window === "undefined"]; inside,
    [None] when [window.location?.origin] is [undefined]. *)
Record environment : Type := {
  VITE_BACKEND_URL : option jsstring;
  window : option (option jsstring)
}.

(** Truthiness of a value that is a string, or [null] or [undefined]
    ([None]). *)
Definition truthy_string (o : option jsstring) : bool :=
  match o with
  | Some s => nonempty s
  | None => false
  end.

(** [window.location.origin] under the guard
    [typeof window !== "undefined" && window.location?.origin]. *)
Definition window_location_origin (env : environment) : option jsstring :=
  match window env with
  | Some o => o
  | None => None
  end.

Definition resolveBackendUrl (env : environment) : jsstring :=
  let envUrl := VITE_BACKEND_URL env in
  if truthy_string envUrl && (0 <? N.of_nat (length (trim (default [] envUrl))))
  then replace_trailing_slash (trim (default [] envUrl))
  else if truthy_string (window_location_origin env)
  then default [] (window_location_origin env)
  else js "http://localhost:3000".

Definition BACKEND_URL (env : environment) : jsstring := resolveBackendUrl env.

Definition buildApiUrl (env : environment) (path : jsstring) : jsstring :=
  if negb (startsWith_slash path)
  then BACKEND_URL env ++ slash :: path
  else BACKEND_URL env ++ path.

(** *** Asynchronous code

    An [async] function is the tree of what it does next: it returns,
    throws, suspends on [fetch] or on the body of a response until the
    event loop settles them, waits for its turn as a promise reaction
    ([Tick]), or performs one synchronous effect on the provider's state
    and goes on. *)
Inductive async (A : Type) : Type :=
| Ret (a : A)
| Throw (e : error)
| Fetch (req : request) (k : settled response → async A)
| Json (r : response) (k : settled value → async A)
| Tick (k : async A)
| GetItem (key : jsstring) (k : option jsstring → async A)
| SetItem (key val : jsstring) (k : async A)
| RemoveItem (key : jsstring) (k : async A)
| SetUser (v : value) (k : async A)
| Navigate (to : jsstring) (k : async A)
| ReadSubscribed (k : bool → async A)
| WriteSubscribed (b : bool) (k : async A).
#[global] Arguments Ret {A} a.
#[global] Arguments Throw {A} e.
#[global] Arguments Fetch {A} req k.
#[global] Arguments Json {A} r k.
#[global] Arguments Tick {A} k.
#[global] Arguments GetItem {A} key k.
#[global] Arguments SetItem {A} key val k.
#[global] Arguments RemoveItem {A} key k.
#[global] Arguments SetUser {A} v k.
#[global] Arguments Navigate {A} to k.
#[global] Arguments ReadSubscribed {A} k.
#[global] Arguments WriteSubscribed {A} b k.

(** Sequencing: the rest of the function body after a statement. *)
Fixpoint bind {A B : Type} (p : async A) (f : A → async B) : async B :=
  match p with
  | Ret a => f a
  | Throw e => Throw e
  | Fetch req k => Fetch req (fun s => bind (k s) f)
  | Json r k => Json r (fun s => bind (k s) f)
  | Tick k => Tick (bind k f)
  | GetItem key k => GetItem key (fun v => bind (k v) f)
  | SetItem key val k => SetItem key val (bind k f)
  | RemoveItem key k => RemoveItem key (bind k f)
  | SetUser v k => SetUser v (bind k f)
  | Navigate to k => Navigate to (bind k f)
  | ReadSubscribed k => ReadSubscribed (fun b => bind (k b) f)
  | WriteSubscribed b k => WriteSubscribed b (bind k f)
  end.

(** [try { p } catch (error) { h error }] *)
Fixpoint try_catch {A : Type} (p : async A) (h : error → async A) : async A :=
  match p with
  | Ret a => Ret a
  | Throw e => h e
  | Fetch req k => Fetch req (fun s => try_catch (k s) h)
  | Json r k => Json r (fun s => try_catch (k s) h)
  | Tick k => Tick (try_catch k h)
  | GetItem key k => GetItem key (fun v => try_catch (k v) h)
  | SetItem key val k => SetItem key val (try_catch k h)
  | RemoveItem key k => RemoveItem key (try_catch k h)
  | SetUser v k => SetUser v (try_catch k h)
  | Navigate to k => Navigate to (try_catch k h)
  | ReadSubscribed k => ReadSubscribed (fun b => try_catch (k b) h)
  | WriteSubscribed b k => WriteSubscribed b (try_catch k h)
  end.

#[local] Notation "'let*' x := p 'in' q" := (bind p (fun x => q))
  (at level 10, x name, p at level 100, q at level 200, only parsing).
#[local] Notation "'do' p ; q" := (bind p (fun _ => q))
  (at level 10, p at level 100, q at level 200, only parsing).

(** [await] of a promise that has settled as [s]. *)
Definition resume {A : Type} (s : settled A) : async A :=
  match s with
  | Fulfilled a => Ret a
  | Rejected e => Throw e
  end.

(** [await fetch(url, init)] *)
Definition await_fetch (req : request) : async response := Fetch req resume.

(** [await response.json()] *)
Definition await_json (r : response) : async value := Json r resume.

(** [await response.json().catch(() => ({}))] *)
Definition await_json_or_empty (r : response) : async value :=
  Json r (fun s => match s with
                   | Fulfilled v => Ret v
                   | Rejected _ => Tick (Ret (VObject ∅))
                   end).

(** [p.then(f)]: [f] runs as a reaction job once [p] is fulfilled. *)
Definition then_ {A B : Type} (p : async A) (f : A → async B) : async B :=
  bind p (fun a => Tick (f a)).

(** [p.catch(h)]: [h] runs as a reaction job once [p] is rejected. *)
Definition catch_ {A : Type} (p : async A) (h : error → async A) : async A :=
  try_catch p (fun e => Tick (h e)).

(** Single effects as statements. *)
Definition localStorage_getItem (key : jsstring) : async (option jsstring) :=
  GetItem key Ret.
Definition localStorage_setItem (key : jsstring) (v : value) : async unit :=
  SetItem key (ToString v) (Ret tt).
Definition localStorage_removeItem (key : jsstring) : async unit :=
  RemoveItem key (Ret tt).
Definition setUser (v : value) : async unit := SetUser v (Ret tt).
Definition navigate (to : jsstring) : async unit := Navigate to (Ret tt).

(** [v.p] for the property names the provider reads ([message], [token],
    [user]): none is on a built-in prototype, so only an object that
    has the property gives a value other than [undefined]; reading from
    [null] or [undefined] throws a [TypeError]. *)
Definition get (v : value) (p : jsstring) : async value :=
  match v with
  | VUndefined => Throw (Error (TypeError_message true p))
  | VNull => Throw (Error (TypeError_message false p))
  | VObject props => Ret (default VUndefined (props !! p))
  | _ => Ret VUndefined
  end.

(** [throw new Error(v)] for a [v] other than [undefined]. *)
Definition throw_new_Error {A : Type} (v : value) : async A :=
  Throw (Error (ToString v)).

(** *** The provider's functions *)

Definition getStoredToken : async (option jsstring) :=
  localStorage_getItem (js "token").

(** The arguments of the three [fetch] calls. *)
Definition current_user_request (env : environment) (token : value) : request :=
  {| url := buildApiUrl env (js "/user/me");
     method := js "GET";
     headers := [(js "Authorization", js "Bearer " ++ ToString token)];
     body := None |}.

Definition login_request (env : environment) (username password : value) : request :=
  {| url := buildApiUrl env (js "/login");
     method := js "POST";
     headers := [(js "Content-Type", js "application/json")];
     body := Some (VObject (<[js "username" := username]>
                             (<[js "password" := password]> ∅))) |}.

Definition register_request (env : environment) (userData : value) : request :=
  {| url := buildApiUrl env (js "/register");
     method := js "POST";
     headers := [(js "Content-Type", js "application/json")];
     body := Some userData |}.

Definition fetchCurrentUser (env : environment) (token : value) : async value :=
  let* response := await_fetch (current_user_request env token) in
  if negb (ok response) then
    let* errorBody := await_json_or_empty response in
    let* msg := get errorBody (js "message") in
    throw_new_Error (or_else msg (VString (js "Failed to fetch user")))
  else
    let* data := await_json response in
    get data (js "user").

(** The callback of [useEffect(..., [])], the startup restore.  The
    function it returns is [cleanup]. *)
Definition restore (env : environment) : async unit :=
  let* token := getStoredToken in
  if negb (truthy_string token) then
    setUser VNull
  else
    do WriteSubscribed true (Ret tt);
    catch_
      (then_ (fetchCurrentUser env (VString (default [] token)))
         (fun currentUser =>
            ReadSubscribed (fun isSubscribed =>
              if isSubscribed then setUser currentUser else Ret tt)))
      (fun _ =>
         ReadSubscribed (fun isSubscribed =>
           if isSubscribed then
             do localStorage_removeItem (js "token");
             setUser VNull
           else Ret tt)).

(** [() => { isSubscribed = false; }] *)
Definition cleanup : async unit := WriteSubscribed false (Ret tt).

Definition logout : async unit :=
  do localStorage_removeItem (js "token");
  do setUser VNull;
  navigate (js "/").

(** [error.message || fallback] in a [catch] block. *)
Definition message_or (e : error) (fallback : jsstring) : value :=
  or_else (VString (message e)) (VString fallback).

Definition login (env : environment) (username password : value) : async value :=
  try_catch
    (let* response := await_fetch (login_request env username password) in
     if negb (ok response) then
       let* errorBody := await_json_or_empty response in
       let* msg := get errorBody (js "message") in
       Ret (or_else msg (VString (js "Failed to login")))
     else
       let* data := await_json response in
       let* token := get data (js "token") in
       do localStorage_setItem (js "token") token;
       let* currentUser := fetchCurrentUser env token in
       do setUser currentUser;
       do navigate (js "/profile");
       Ret (VString (js "")))
    (fun error => Ret (message_or error (js "Failed to login"))).

Definition register (env : environment) (userData : value) : async value :=
  try_catch
    (let* response := await_fetch (register_request env userData) in
     if negb (ok response) then
       let* errorBody := await_json_or_empty response in
       let* msg := get errorBody (js "message") in
       Ret (or_else msg (VString (js "Failed to register")))
     else
       do navigate (js "/success");
       Ret (VString (js "")))
    (fun error => Ret (message_or error (js "Failed to register"))).

(** *** The state the provider acts on

    The browser's store is taken to work: no call on it throws. *)

Record world : Type := {
  localStorage : gmap jsstring jsstring;  (* the browser's durable store *)
  user : value;                           (* the [useState] cell *)
  navigations : list jsstring;            (* calls of [navigate], oldest first *)
  requests : list request;                (* calls of [fetch], oldest first *)
  isSubscribed : bool                     (* the effect's closure variable *)
}.

Definition with_localStorage (m : gmap jsstring jsstring) (w : world) : world :=
  {| localStorage := m; user := user w; navigations := navigations w;
     requests := requests w; isSubscribed := isSubscribed w |}.
Definition with_user (v : value) (w : world) : world :=
  {| localStorage := localStorage w; user := v; navigations := navigations w;
     requests := requests w; isSubscribed := isSubscribed w |}.
Definition with_navigation (to : jsstring) (w : world) : world :=
  {| localStorage := localStorage w; user := user w;
     navigations := navigations w ++ [to];
     requests := requests w; isSubscribed := isSubscribed w |}.
Definition with_request (req : request) (w : world) : world :=
  {| localStorage := localStorage w; user := user w; navigations := navigations w;
     requests := requests w ++ [req]; isSubscribed := isSubscribed w |}.
Definition with_isSubscribed (b : bool) (w : world) : world :=
  {| localStorage := localStorage w; user := user w; navigations := navigations w;
     requests := requests w; isSubscribed := b |}.

(** A function run to its end, every [fetch] answered by [net]: the state
    it leaves and how its promise settles.  No function of the provider
    issues the same request twice, so every combination of answers to one
    call is some [net]. *)
Fixpoint run {A : Type} (net : request → settled response)
    (p : async A) (w : world) : world * settled A :=
  match p with
  | Ret a => (w, Fulfilled a)
  | Throw e => (w, Rejected e)
  | Fetch req k => run net (k (net req)) (with_request req w)
  | Json r k => run net (k (json r)) w
  | Tick k => run net k w
  | GetItem key k => run net (k (localStorage w !! key)) w
  | SetItem key val k => run net k (with_localStorage (<[key := val]> (localStorage w)) w)
  | RemoveItem key k => run net k (with_localStorage (delete key (localStorage w)) w)
  | SetUser v k => run net k (with_user v w)
  | Navigate to k => run net k (with_navigation to w)
  | ReadSubscribed k => run net (k (isSubscribed w)) w
  | WriteSubscribed b k => run net k (with_isSubscribed b w)
  end.

(** *** The event loop

    Between two suspensions a function runs without interruption:
    [advance] performs the synchronous effects up to the next suspension
    (a [fetch] just issued, a body being read, a reaction job queued) or
    to the end. *)
Fixpoint advance {A : Type} (p : async A) (w : world) : world * async A :=
  match p with
  | Fetch req k => (with_request req w, Fetch req k)
  | GetItem key k => advance (k (localStorage w !! key)) w
  | SetItem key val k => advance k (with_localStorage (<[key := val]> (localStorage w)) w)
  | RemoveItem key k => advance k (with_localStorage (delete key (localStorage w)) w)
  | SetUser v k => advance k (with_user v w)
  | Navigate to k => advance k (with_navigation to w)
  | ReadSubscribed k => advance (k (isSubscribed w)) w
  | WriteSubscribed b k => advance k (with_isSubscribed b w)
  | Ret _ | Throw _ | Json _ _ | Tick _ => (w, p)
  end.

(** What can happen while the restore is in flight: the pending [fetch]
    settles, the event loop gives the function its next turn (a body has
    been read, a reaction job runs), or React tears the provider down
    and runs the effect's [cleanup].  (The effect returns no cleanup when
    no token is stored; nothing reads the flag then.) *)
Inductive event : Type :=
| Settle (s : settled response)
| Turn
| Unmount.

Definition step (ev : event) (c : world * async unit) : world * async unit :=
  match ev, snd c with
  | Settle s, Fetch _ k => advance (k s) (fst c)
  | Turn, Json r k => advance (k (json r)) (fst c)
  | Turn, Tick k => advance k (fst c)
  | Unmount, p => (fst (advance cleanup (fst c)), p)
  | _, _ => c
  end.

Definition steps (evs : list event) (c : world * async unit) : world * async unit :=
  fold_left (fun c ev => step ev c) evs c.

(** The provider mounts: React runs the effect. *)
Definition mount (env : environment) (w : world) : world * async unit :=
  advance (restore env) w.

(** *** Notions the properties are stated with *)

(** No backend URL is configured: the variable is unset, or blank. *)
Definition unconfigured (env : environment) : Prop :=
  match VITE_BACKEND_URL env with
  | Some u => trim u = []
  | None => True
  end.

(** The state after [localStorage.setItem("token", token)] in [login]. *)
Definition token_stored (env : environment) (username password : value)
    (token : jsstring) (w : world) : world :=
  with_localStorage (<[js "token" := token]> (localStorage w))
    (with_request (login_request env username password) w).

(** The truthy [message] property of the body of a response, if it has
    one. *)
Definition supplied_message (resp : response) : option value :=
  match json resp with
  | Fulfilled (VObject props) =>
      match props !! js "message" with
      | Some m => if truthy m then Some m else None
      | None => None
      end
  | _ => None
  end.

Definition nullish (body : settled value) : bool :=
  match body with
  | Fulfilled VNull | Fulfilled VUndefined => true
  | _ => false
  end.

(** A network error, a response that is not a success, and a success whose
    body is not JSON each make [fetchCurrentUser] reject. *)
Definition resolution_fails (s : settled response) : Prop :=
  match s with
  | Rejected _ => True
  | Fulfilled resp =>
      ok resp = false ∨ match json resp with Rejected _ => True | Fulfilled _ => False end
  end.

(** Every write to the store and to [user] in [p] is under a read of
    [isSubscribed] that gave [true] in the same uninterrupted run; [b]
    tells whether such a read has happened.  The flag itself is not
    written. *)
Fixpoint guarded {A : Type} (b : bool) (p : async A) : Prop :=
  match p with
  | Ret _ | Throw _ => True
  | Fetch _ k => ∀ s, guarded false (k s)
  | Json _ k => ∀ s, guarded false (k s)
  | Tick k => guarded false k
  | GetItem _ k => ∀ v, guarded b (k v)
  | SetItem _ _ k | RemoveItem _ k | SetUser _ k => b = true ∧ guarded true k
  | Navigate _ k => guarded b k
  | ReadSubscribed k => guarded true (k true) ∧ guarded b (k false)
  | WriteSubscribed _ _ => False
  end.

(** The event loop and [run] agree: what is pending after an uninterrupted
    run ends, the network answering, as [run] says. *)
Definition finish {A : Type} (net : request → settled response)
    (c : world * async A) : world * settled A :=
  match snd c with
  | Fetch req k => run net (k (net req)) (fst c)
  | p => run net p (fst c)
  end.

(** The request was answered, and with a success. *)
Definition answered_ok (s : settled response) : bool :=
  match s with
  | Fulfilled resp => ok resp
  | Rejected _ => false
  end.

(** Whoever is logged in has a token in the store: a truthy [user] comes
    with an entry under ["token"]. *)
Definition session_consistent (w : world) : Prop :=
  truthy (user w) = true → is_Some (localStorage w !! js "token").

End Provider.
End Frontend.

(** ** Concrete sessions

    An engine, a configuration, states and networks to run the provider
    on. *)
Module Scenario.
Import Frontend.

(** An engine whose numbers are the integers, with V8's wording of the
    [TypeError]. *)
Definition example_engine : Engine :=
  {| number := Z;
     number_truthy := fun z => negb (Z.eqb z 0);
     number_ToString := fun z => js (NilZero.string_of_int (Z.to_int z));
     TypeError_message := fun undefined p =>
       js "Cannot read properties of "
       ++ (if undefined then js "undefined" else js "null")
       ++ js " (reading '" ++ p ++ js "')" |}.
#[local] Existing Instance example_engine.

Definition env : environment :=
  {| VITE_BACKEND_URL := Some (js " http://api.test/ "); window := None |}.

(** A fresh browser: nothing stored, nobody logged in. *)
Definition fresh : world :=
  {| localStorage := ∅; user := VNull; navigations := []; requests := [];
     isSubscribed := false |}.

(** A browser that kept the token ["stale"] from an earlier session. *)
Definition returning : world := with_localStorage {[ js "token" := js "stale" ]} fresh.

Definition alice : value := VString (js "alice").
Definition secret : value := VString (js "secret").
Definition profile : value := VObject {[ js "utorid" := VString (js "alice") ]}.

Definition reply (is_ok : bool) (body : value) : settled response :=
  Fulfilled {| ok := is_ok; json := Fulfilled body |}.

Definition is_POST (req : request) : bool := bool_decide (method req = js "POST").

(** The server accepts the credentials and the token. *)
Definition accepting (req : request) : settled response :=
  if is_POST req
  then reply true (VObject {[ js "token" := VString (js "abc") ]})
  else reply true (VObject {[ js "user" := profile ]}).

(** The server answers 401 with a message to every request. *)
Definition refusing (req : request) : settled response :=
  reply false (VObject {[ js "message" := VString (js "bad creds") ]}).

(** The server answers 401 with an empty message. *)
Definition refusing_silently (req : request) : settled response :=
  reply false (VObject {[ js "message" := VString (js "") ]}).

(** The server issues a token and then does not accept it. *)
Definition issuing_bad_token (req : request) : settled response :=
  if is_POST req
  then reply true (VObject {[ js "token" := VString (js "abc") ]})
  else reply false (VObject {[ js "message" := VString (js "Unauthorized") ]}).

(** No network: every [fetch] rejects. *)
Definition offline (req : request) : settled response :=
  Rejected (Error (js "Failed to fetch")).

(** The server answers the login with an object that has no token. *)
Definition forgetful (req : request) : settled response :=
  if is_POST req
  then reply true (VObject ∅)
  else reply false (VObject {[ js "message" := VString (js "Unauthorized") ]}).

(** A browser whose store holds the empty string under ["token"]. *)
Definition blank_token : world := with_localStorage {[ js "token" := js "" ]} fresh.

(** A browser that kept the token ["abc"]. *)
Definition remembering : world := with_localStorage {[ js "token" := js "abc" ]} fresh.

(** The page after a reload: the store is kept, the rest starts anew. *)
Definition reloaded (w : world) : world := with_localStorage (localStorage w) fresh.

Definition newcomer : value :=
  VObject {[ js "utorid" := VString (js "bob") ]}.

End Scenario.

(** * Properties *)

(** ** Strings *)
Section StringFacts.

Lemma trimStart_suffix (s : jsstring) : ∃ pre, s = pre ++ trimStart s.
Proof.
  induction s as [|c s [pre IH]]; simpl.
  - now exists [].
  - destruct (is_white_space c).
    + exists (c :: pre). simpl. now f_equal.
    + now exists [].
Qed.

Lemma trimStart_starts_clean (s : jsstring) : starts_clean (trimStart s).
Proof.
  induction s as [|c s IH]; simpl; [exact I|].
  destruct (is_white_space c) eqn:E; [exact IH|exact E].
Qed.

Lemma trimStart_fixed (s : jsstring) : starts_clean s → trimStart s = s.
Proof. destruct s as [|c s]; simpl; [reflexivity|]. now intros ->. Qed.

Lemma trimStart_length (s : jsstring) : (length (trimStart s) <= length s)%nat.
Proof.
  induction s as [|c s IH]; simpl; [lia|].
  destruct (is_white_space c); simpl; lia.
Qed.

Lemma trimEnd_prefix (s : jsstring) : ∃ post, s = trimEnd s ++ post.
Proof.
  unfold trimEnd. destruct (trimStart_suffix (rev s)) as [pre E].
  exists (rev pre). rewrite <- rev_app_distr, <- E. now rewrite rev_involutive.
Qed.

Lemma trimEnd_length (s : jsstring) : (length (trimEnd s) <= length s)%nat.
Proof.
  unfold trimEnd. rewrite length_rev.
  etransitivity; [apply trimStart_length|]. now rewrite length_rev.
Qed.

Lemma replace_trailing_slash_prefix (s : jsstring) :
  ∃ post, s = replace_trailing_slash s ++ post.
Proof.
  unfold replace_trailing_slash. destruct (rev s) as [|c r] eqn:E.
  - exists []. now rewrite app_nil_r.
  - destruct (c =? slash).
    + exists [c]. rewrite <- (rev_involutive s), E. reflexivity.
    + exists []. now rewrite app_nil_r.
Qed.

Lemma replace_trailing_slash_length (s : jsstring) :
  (length (replace_trailing_slash s) <= length s)%nat.
Proof.
  destruct (replace_trailing_slash_prefix s) as [post E].
  rewrite E at 2. rewrite length_app. lia.
Qed.

(** Exactly one slash goes. *)
Lemma replace_trailing_slash_snoc (s : jsstring) :
  replace_trailing_slash (s ++ [slash]) = s.
Proof.
  unfold replace_trailing_slash. rewrite rev_app_distr. simpl.
  apply rev_involutive.
Qed.

Lemma starts_clean_prefix (a b : jsstring) : starts_clean (a ++ b) → starts_clean a.
Proof. destruct a; simpl; auto. Qed.

Lemma trim_starts_clean (s : jsstring) : starts_clean (trim s).
Proof.
  unfold trim. destruct (trimEnd_prefix (trimStart s)) as [post E].
  apply (starts_clean_prefix _ post). rewrite <- E. apply trimStart_starts_clean.
Qed.

(** A string that starts and ends clean is left alone. *)
Lemma clean_fixed (t : jsstring) :
  starts_clean t → ends_clean t = true →
  replace_trailing_slash (trim t) = t.
Proof.
  intros Hs He. unfold trim. rewrite (trimStart_fixed t Hs).
  unfold ends_clean in He. unfold trimEnd, replace_trailing_slash.
  destruct (rev t) as [|c r] eqn:E.
  - simpl. assert (t = []) as -> by (rewrite <- (rev_involutive t), E; reflexivity).
    reflexivity.
  - apply andb_true_iff in He as [H1 H2].
    apply negb_true_iff in H1, H2. cbn [trimStart]. rewrite H2.
    rewrite rev_involutive, H1, <- E. apply rev_involutive.
Qed.

(** The pieces of a string whose last code unit is [c]. *)
Lemma rev_cons_snoc (t r : jsstring) (c : N) :
  rev t = c :: r → t = rev r ++ [c] ∧ length t = S (length r).
Proof.
  intros E. assert (Ht : t = rev r ++ [c])
    by (rewrite <- (rev_involutive t), E; reflexivity).
  split; [exact Ht|]. rewrite Ht, length_app, length_rev. simpl. lia.
Qed.

(** A string that ends in a slash or in white space gets shorter. *)
Lemma unclean_shrinks (t : jsstring) :
  starts_clean t → ends_clean t = false →
  (length (replace_trailing_slash (trim t)) < length t)%nat.
Proof.
  intros Hs He. unfold trim. rewrite (trimStart_fixed t Hs).
  unfold ends_clean in He.
  destruct (rev t) as [|c r] eqn:E; [discriminate|].
  destruct (rev_cons_snoc _ _ _ E) as [Ht Hlen].
  destruct (is_white_space c) eqn:Hws.
  - pose proof (replace_trailing_slash_length (trimEnd t)) as H1.
    assert (length (trimEnd t) <= length r)%nat; [|lia].
    unfold trimEnd. rewrite E. cbn [trimStart]. rewrite Hws, length_rev.
    apply trimStart_length.
  - assert (Hc : (c =? slash) = true).
    { destruct (c =? slash); [reflexivity|]. simpl in He. discriminate. }
    assert (Hte : trimEnd t = t).
    { unfold trimEnd. rewrite E. cbn [trimStart]. rewrite Hws.
      rewrite <- E. apply rev_involutive. }
    rewrite Hte. unfold replace_trailing_slash. rewrite E, Hc, length_rev. lia.
Qed.

End StringFacts.

(** ** The origin gate *)
Section GateFacts.
Import Backend.

Lemma sanitizeOrigin_starts_clean (origin : option jsstring) :
  starts_clean (sanitizeOrigin origin).
Proof.
  destruct origin as [s|]; simpl; [|exact I].
  destruct (replace_trailing_slash_prefix (trim s)) as [post E].
  apply (starts_clean_prefix _ post). rewrite <- E. apply trim_starts_clean.
Qed.

Lemma filter_nil_Forall {A : Type} (f : A → bool) (l : list A) :
  List.filter f l = [] ↔ Forall (fun x => f x = false) l.
Proof.
  induction l as [|a l IH]; simpl.
  - split; [constructor|reflexivity].
  - destruct (f a) eqn:E; split.
    + discriminate.
    + intros H. inversion H; congruence.
    + intros H. constructor; [exact E|now apply IH].
    + intros H. inversion H; now apply IH.
Qed.

Lemma nonempty_false (s : jsstring) : nonempty s = false ↔ s = [].
Proof. destruct s; simpl; split; congruence. Qed.

Lemma allowAllOrigins_iff (FRONTEND_URL : option jsstring) :
  allowAllOrigins FRONTEND_URL = true ↔ configuredOrigins FRONTEND_URL = [].
Proof.
  unfold allowAllOrigins. destruct (configuredOrigins FRONTEND_URL); split; congruence.
Qed.

Lemma elem_of_allowedOrigins (FRONTEND_URL : option jsstring) (o : jsstring) :
  o ∈ allowedOrigins FRONTEND_URL ↔
  o ∈ defaultOrigins ∨ o ∈ configuredOrigins FRONTEND_URL.
Proof. unfold allowedOrigins. rewrite elem_of_list_to_set, elem_of_app. reflexivity. Qed.

Lemma origin_callback_Allow (FRONTEND_URL origin : option jsstring) :
  origin_callback FRONTEND_URL origin = Allow ↔
  falsy_origin origin = true ∨ allowAllOrigins FRONTEND_URL = true
  ∨ sanitizeOrigin origin ∈ allowedOrigins FRONTEND_URL.
Proof.
  unfold origin_callback. cbv zeta.
  destruct (falsy_origin origin); [intuition|].
  destruct (allowAllOrigins FRONTEND_URL); [intuition|]. simpl.
  case_bool_decide as H; split; intuition congruence.
Qed.

Lemma falsy_origin_iff (origin : option jsstring) :
  falsy_origin origin = true ↔ origin = None ∨ origin = Some [].
Proof.
  destruct origin as [[|c s]|]; simpl; split; intuition congruence.
Qed.

(** C7 (as amended): normalizing a normalized origin changes nothing exactly
    when the normalized origin does not end in a slash or in white space; and
    ["http://example.com/"] and ["http://example.com"] normalize to the same
    value.  A value that is not a string normalizes to the empty string,
    which is normalized. *)
Theorem sanitizeOrigin_idempotent_iff (s : jsstring) :
  (sanitizeOrigin (Some (sanitizeOrigin (Some s))) = sanitizeOrigin (Some s)
   ↔ ends_clean (sanitizeOrigin (Some s)) = true)
  ∧ sanitizeOrigin (Some (js "http://example.com/"))
    = sanitizeOrigin (Some (js "http://example.com"))
  ∧ sanitizeOrigin (Some (sanitizeOrigin None)) = sanitizeOrigin None.
Proof.
  split; [|split; reflexivity].
  pose proof (sanitizeOrigin_starts_clean (Some s)) as Hs.
  set (t := sanitizeOrigin (Some s)) in *.
  change (sanitizeOrigin (Some t)) with (replace_trailing_slash (trim t)).
  split.
  - intros Heq. destruct (ends_clean t) eqn:He; [reflexivity|].
    pose proof (unclean_shrinks t Hs He) as Hlt. rewrite Heq in Hlt. lia.
  - apply clean_fixed, Hs.
Qed.

(** C7 (as stated) fails on an origin with two trailing slashes: one slash
    goes at each normalization. *)
Lemma sanitizeOrigin_twice_differs :
  sanitizeOrigin (Some (js "http://example.com//")) = js "http://example.com/"
  ∧ sanitizeOrigin (Some (sanitizeOrigin (Some (js "http://example.com//"))))
    = js "http://example.com"
  ∧ sanitizeOrigin (Some (sanitizeOrigin (Some (js "http://example.com//"))))
    ≠ sanitizeOrigin (Some (js "http://example.com//")).
Proof. repeat split; [reflexivity..|discriminate]. Qed.

(** C3 (as amended): the gate is in allow-all mode exactly when every
    comma-separated entry of the configured list normalizes to the empty
    string; the allow set is the normalized defaults together with the
    normalized, non-empty configured entries; the callback allows a request
    exactly when it has no [Origin] header or an empty one, or the gate is
    in allow-all mode, or the normalized origin is in the allow set; every
    other request is refused with ["Not allowed by CORS"], and then the
    stack fails with that error whatever the later middleware and the routes
    are. *)
Theorem origin_gate_admission (FRONTEND_URL origin : option jsstring) :
  (allowAllOrigins FRONTEND_URL = true
   ↔ Forall (fun entry => sanitizeOrigin (Some entry) = [])
       (split_comma (default [] FRONTEND_URL)))
  ∧ (∀ o, o ∈ allowedOrigins FRONTEND_URL
          ↔ o ∈ defaultOrigins
            ∨ (o ≠ [] ∧ ∃ entry, entry ∈ split_comma (default [] FRONTEND_URL)
                                 ∧ o = sanitizeOrigin (Some entry)))
  ∧ (origin_callback FRONTEND_URL origin = Allow
     ↔ origin = None ∨ origin = Some []
       ∨ allowAllOrigins FRONTEND_URL = true
       ∨ sanitizeOrigin origin ∈ allowedOrigins FRONTEND_URL)
  ∧ (origin_callback FRONTEND_URL origin = Allow
     ∨ origin_callback FRONTEND_URL origin = Deny (js "Not allowed by CORS"))
  ∧ (∀ (request response : Type) (origin_header : request → option jsstring)
       (cors_allowed express_json routes : @middleware request response)
       (req : request),
       origin_header req = origin →
       origin_callback FRONTEND_URL origin ≠ Allow →
       app origin_header cors_allowed express_json routes FRONTEND_URL req
       = Failure (js "Not allowed by CORS")).
Proof.
  split; [|split; [|split; [|split]]].
  - rewrite allowAllOrigins_iff. unfold configuredOrigins.
    rewrite filter_nil_Forall, Forall_map.
    apply Forall_iff. intros entry. apply nonempty_false.
  - intros o. rewrite elem_of_allowedOrigins. apply or_iff_compat_l.
    unfold configuredOrigins. rewrite list_elem_of_In, filter_In, in_map_iff.
    split.
    + intros [(entry & <- & Hin) Hne]. split.
      * intros E. rewrite E in Hne. discriminate.
      * exists entry. split; [now apply list_elem_of_In|reflexivity].
    + intros (Hne & entry & Hin & ->). split.
      * exists entry. split; [reflexivity|now apply list_elem_of_In].
      * destruct (sanitizeOrigin (Some entry)); [congruence|reflexivity].
  - rewrite origin_callback_Allow, falsy_origin_iff. tauto.
  - unfold origin_callback. cbv zeta.
    destruct (_ || _ || _); [now left|now right].
  - intros request response origin_header cors_allowed express_json routes req Ho Hdeny.
    unfold app, cors. simpl. rewrite Ho.
    revert Hdeny. unfold origin_callback. cbv zeta.
    destruct (_ || _ || _); [congruence|reflexivity].
Qed.

(** C3 (as stated) fails on a request whose [Origin] header is present and
    empty while a list is configured: the header is there, the gate is not
    in allow-all mode, the normalized origin is not in the allow set, and
    the request is admitted. *)
Lemma origin_gate_empty_origin_admitted :
  origin_callback (Some (js "https://app.example.com")) (Some (js "")) = Allow
  ∧ Some (js "") ≠ (None : option jsstring)
  ∧ allowAllOrigins (Some (js "https://app.example.com")) = false
  ∧ sanitizeOrigin (Some (js "")) ∉ allowedOrigins (Some (js "https://app.example.com")).
Proof.
  split; [reflexivity|]. split; [discriminate|]. split; [reflexivity|].
  apply (bool_decide_eq_false_1 _). vm_compute. reflexivity.
Qed.

End GateFacts.

(** ** The session provider *)
Section ProviderFacts.
Import Frontend.
Context {engine : Engine}.

(** *** Backend address *)

Lemma resolveBackendUrl_configured (env : environment) (u : jsstring) :
  VITE_BACKEND_URL env = Some u → trim u ≠ [] →
  resolveBackendUrl env = replace_trailing_slash (trim u).
Proof.
  intros E Hne. unfold resolveBackendUrl. rewrite E.
  change (default [] (Some u)) with u. cbn [truthy_string].
  assert (Hu : nonempty u = true).
  { destruct u; [|reflexivity]. exfalso. apply Hne. reflexivity. }
  rewrite Hu. destruct (trim u); [congruence|reflexivity].
Qed.

Lemma resolveBackendUrl_unconfigured (env : environment) :
  unconfigured env →
  resolveBackendUrl env =
    if truthy_string (window_location_origin env)
    then default [] (window_location_origin env)
    else js "http://localhost:3000".
Proof.
  unfold unconfigured, resolveBackendUrl. destruct (VITE_BACKEND_URL env) as [u|].
  - change (default [] (Some u)) with u. intros ->.
    change (0 <? N.of_nat (length (@nil N))) with false.
    now rewrite andb_false_r.
  - reflexivity.
Qed.

(** C6: the URL of a request is the resolved base, one slash, and the path
    without its leading slash if it has one: a path that begins with a slash
    is appended as it is, any other path after a slash.  The base is the
    configured URL, trimmed and without one trailing slash, when the trimmed
    URL is not empty; else the origin of the page when there is one; else
    ["http://localhost:3000"]. *)
Theorem buildApiUrl_one_slash (env : environment) (path : jsstring) :
  buildApiUrl env path = BACKEND_URL env ++ slash :: without_leading_slash path
  ∧ (startsWith_slash path = true → buildApiUrl env path = BACKEND_URL env ++ path)
  ∧ (startsWith_slash path = false →
     buildApiUrl env path = BACKEND_URL env ++ slash :: path)
  ∧ (∀ u, VITE_BACKEND_URL env = Some u → trim u ≠ [] →
          BACKEND_URL env = replace_trailing_slash (trim u))
  ∧ (∀ o, unconfigured env → window env = Some (Some o) → o ≠ [] →
          BACKEND_URL env = o)
  ∧ (unconfigured env →
     window env = None ∨ window env = Some None ∨ window env = Some (Some []) →
     BACKEND_URL env = js "http://localhost:3000")
  ∧ (∀ v, replace_trailing_slash (v ++ [slash]) = v).
Proof.
  repeat split.
  - unfold buildApiUrl. destruct path as [|c rest]; [reflexivity|]. simpl.
    destruct (c =? slash) eqn:E; [|reflexivity].
    apply N.eqb_eq in E. now subst c.
  - intros H. unfold buildApiUrl. now rewrite H.
  - intros H. unfold buildApiUrl. now rewrite H.
  - intros u. apply resolveBackendUrl_configured.
  - intros o Hu Hw Ho. unfold BACKEND_URL.
    rewrite (resolveBackendUrl_unconfigured env Hu).
    unfold window_location_origin. rewrite Hw. simpl.
    destruct o; [congruence|reflexivity].
  - intros Hu Hw. unfold BACKEND_URL.
    rewrite (resolveBackendUrl_unconfigured env Hu).
    unfold window_location_origin.
    destruct Hw as [-> | [-> | ->]]; reflexivity.
  - apply replace_trailing_slash_snoc.
Qed.

(** *** Running a function to its end *)

Lemma run_bind {A B : Type} (net : request → settled response)
    (p : async A) (f : A → async B) (w : world) :
  run net (bind p f) w =
    match run net p w with
    | (w', Fulfilled a) => run net (f a) w'
    | (w', Rejected e) => (w', Rejected e)
    end.
Proof.
  revert w. induction p as [a|e|req k IH|r k IH|k IH|key k IH|key val k IH
    |key k IH|v k IH|to k IH|k IH|b k IH]; intros w; simpl; auto.
Qed.

Lemma run_try_catch {A : Type} (net : request → settled response)
    (p : async A) (h : error → async A) (w : world) :
  run net (try_catch p h) w =
    match run net p w with
    | (w', Fulfilled a) => (w', Fulfilled a)
    | (w', Rejected e) => run net (h e) w'
    end.
Proof.
  revert w. induction p as [a|e|req k IH|r k IH|k IH|key k IH|key val k IH
    |key k IH|v k IH|to k IH|k IH|b k IH]; intros w; simpl; auto.
Qed.

(** [fetchCurrentUser] issues one request and touches nothing else; how it
    settles does not depend on the state. *)
Lemma run_fetchCurrentUser (net : request → settled response)
    (env : environment) (token : value) (w : world) :
  run net (fetchCurrentUser env token) w =
    (with_request (current_user_request env token) w,
     snd (run net (fetchCurrentUser env token) w)).
Proof.
  unfold fetchCurrentUser, await_fetch. simpl.
  destruct (net (current_user_request env token)) as [r|e]; simpl; [|reflexivity].
  destruct (ok r); simpl.
  - destruct (json r) as [v|e]; simpl; [|reflexivity].
    destruct v; reflexivity.
  - destruct (json r) as [v|e]; simpl.
    + destruct v; reflexivity.
    + reflexivity.
Qed.

Lemma fetchCurrentUser_outcome (net : request → settled response)
    (env : environment) (token : value) (w w' : world) :
  snd (run net (fetchCurrentUser env token) w)
  = snd (run net (fetchCurrentUser env token) w').
Proof.
  unfold fetchCurrentUser, await_fetch. simpl.
  destruct (net (current_user_request env token)) as [r|e]; simpl; [|reflexivity].
  destruct (ok r); simpl.
  - destruct (json r) as [v|e]; simpl; [|reflexivity].
    destruct v; reflexivity.
  - destruct (json r) as [v|e]; simpl.
    + destruct v; reflexivity.
    + reflexivity.
Qed.

(** *** [login] *)

Lemma run_login_ok (net : request → settled response) (env : environment)
    (username password : value) (w : world)
    (resp : response) (data token : value) :
  net (login_request env username password) = Fulfilled resp →
  ok resp = true →
  json resp = Fulfilled data →
  get data (js "token") = Ret token →
  run net (login env username password) w =
    match run net (fetchCurrentUser env token)
            (token_stored env username password (ToString token) w) with
    | (w', Fulfilled currentUser) =>
        (with_navigation (js "/profile") (with_user currentUser w'),
         Fulfilled (VString (js "")))
    | (w', Rejected e) => (w', Fulfilled (message_or e (js "Failed to login")))
    end.
Proof.
  intros Hnet Hok Hjson Hget. unfold login, await_fetch.
  cbn [bind try_catch run]. rewrite Hnet. cbn [resume bind].
  rewrite Hok. cbn [negb]. unfold await_json. cbn [bind try_catch run].
  rewrite Hjson. cbn [resume bind]. rewrite Hget. cbn [bind].
  unfold localStorage_setItem. cbn [bind try_catch run].
  rewrite run_try_catch, run_bind. unfold token_stored.
  destruct (run net (fetchCurrentUser env token) _) as [w' [currentUser|e]];
    reflexivity.
Qed.

(** C1: when the POST to the login endpoint is answered by a success
    response whose body carries a token and [fetchCurrentUser] with that
    token fulfils, [login] returns the empty string, the token is stored
    under ["token"], [user] is the resolved identity, and [navigate] has
    been called with ["/profile"]. *)
Theorem login_success (net : request → settled response) (env : environment)
    (username password : value) (w : world)
    (resp : response) (props : gmap jsstring value) (t : jsstring) (who : value) :
  net (login_request env username password) = Fulfilled resp →
  ok resp = true →
  json resp = Fulfilled (VObject props) →
  props !! js "token" = Some (VString t) →
  snd (run net (fetchCurrentUser env (VString t)) w) = Fulfilled who →
  let final := run net (login env username password) w in
  snd final = Fulfilled (VString (js ""))
  ∧ localStorage (fst final) !! js "token" = Some t
  ∧ user (fst final) = who
  ∧ navigations (fst final) = navigations w ++ [js "/profile"].
Proof.
  intros Hnet Hok Hjson Htok Hwho final. subst final.
  rewrite (run_login_ok net env username password w resp (VObject props) (VString t))
    by (try assumption; simpl; now rewrite Htok).
  rewrite run_fetchCurrentUser.
  rewrite (fetchCurrentUser_outcome net env (VString t) _ w), Hwho.
  cbn [fst snd]. repeat split. simpl. apply lookup_insert_eq.
Qed.

(** C10: when the POST succeeds with a token and [fetchCurrentUser] with
    that token rejects, [login] returns the error's message, or
    ["Failed to login"] for an empty message, so a string that is not
    empty; the token stays stored under ["token"]; [user] is what it was,
    and [navigate] has not been called. *)
Theorem login_keeps_token_when_resolution_fails
    (net : request → settled response) (env : environment)
    (username password : value) (w : world)
    (resp : response) (props : gmap jsstring value) (t : jsstring) (e : error) :
  net (login_request env username password) = Fulfilled resp →
  ok resp = true →
  json resp = Fulfilled (VObject props) →
  props !! js "token" = Some (VString t) →
  snd (run net (fetchCurrentUser env (VString t)) w) = Rejected e →
  let final := run net (login env username password) w in
  (∃ m, snd final = Fulfilled (VString m) ∧ m ≠ []
        ∧ m = if nonempty (message e) then message e else js "Failed to login")
  ∧ localStorage (fst final) !! js "token" = Some t
  ∧ user (fst final) = user w
  ∧ navigations (fst final) = navigations w.
Proof.
  intros Hnet Hok Hjson Htok Hrej final. subst final.
  rewrite (run_login_ok net env username password w resp (VObject props) (VString t))
    by (try assumption; simpl; now rewrite Htok).
  rewrite run_fetchCurrentUser.
  rewrite (fetchCurrentUser_outcome net env (VString t) _ w), Hrej.
  cbn [fst snd]. split; [|repeat split; simpl; apply lookup_insert_eq].
  unfold message_or, or_else. cbn [truthy].
  destruct (message e) as [|c m]; cbn [nonempty]; eexists; (split; [reflexivity|]);
    split; (reflexivity || discriminate).
Qed.

Lemma run_login_rejected (net : request → settled response) (env : environment)
    (username password : value) (w : world) (resp : response) :
  net (login_request env username password) = Fulfilled resp →
  ok resp = false →
  run net (login env username password) w =
    (with_request (login_request env username password) w,
     Fulfilled
       match json resp with
       | Fulfilled VNull =>
           message_or (Error (TypeError_message false (js "message")))
             (js "Failed to login")
       | Fulfilled VUndefined =>
           message_or (Error (TypeError_message true (js "message")))
             (js "Failed to login")
       | _ => default (VString (js "Failed to login")) (supplied_message resp)
       end).
Proof.
  intros Hnet Hok. unfold login, await_fetch, supplied_message.
  cbn [bind try_catch run]. rewrite Hnet. cbn [resume bind].
  rewrite Hok. cbn [negb]. unfold await_json_or_empty. cbn [bind try_catch run].
  destruct (json resp) as [v|e]; [destruct v as [| |b|n|s|elements|props]|];
    try reflexivity.
  cbn [bind get try_catch run]. unfold or_else.
  destruct (props !! js "message") as [m|]; cbn [default from_option id];
    [destruct (truthy m)|]; reflexivity.
Qed.

(** C4 (as amended): when the login endpoint answers with a response that
    is not a success, the stored token, [user] and the navigation are
    unchanged, and [login] returns the [message] of the body when the body
    is an object whose [message] is truthy (for a string: not empty);
    it returns ["Failed to login"] when the body cannot be parsed, or has
    no [message], or a falsy one such as the empty string.  What [login]
    returns on the body [null] is not part of the statement. *)
Theorem login_rejected (net : request → settled response) (env : environment)
    (username password : value) (w : world) (resp : response) :
  net (login_request env username password) = Fulfilled resp →
  ok resp = false →
  let final := run net (login env username password) w in
  localStorage (fst final) = localStorage w
  ∧ user (fst final) = user w
  ∧ navigations (fst final) = navigations w
  ∧ (nullish (json resp) = false →
     snd final = Fulfilled (default (VString (js "Failed to login"))
                              (supplied_message resp))).
Proof.
  intros Hnet Hok final. subst final.
  rewrite (run_login_rejected net env username password w resp Hnet Hok).
  cbn [fst snd]. repeat split.
  destruct (json resp) as [[]|]; simpl; congruence.
Qed.

(** *** [restore] and [logout] *)

Lemma run_restore_no_token (net : request → settled response)
    (env : environment) (w : world) :
  truthy_string (localStorage w !! js "token") = false →
  run net (restore env) w = (with_user VNull w, Fulfilled tt).
Proof.
  intros H. unfold restore, getStoredToken, localStorage_getItem.
  cbn [bind run]. rewrite H. reflexivity.
Qed.

Lemma run_restore_token (net : request → settled response)
    (env : environment) (w : world) (t : jsstring) :
  localStorage w !! js "token" = Some t → t ≠ [] →
  run net (restore env) w =
    match run net (fetchCurrentUser env (VString t)) (with_isSubscribed true w) with
    | (w', Fulfilled currentUser) => (with_user currentUser w', Fulfilled tt)
    | (w', Rejected _) =>
        (with_user VNull
           (with_localStorage (delete (js "token") (localStorage w')) w'),
         Fulfilled tt)
    end.
Proof.
  intros Ht Hne. unfold restore, getStoredToken, localStorage_getItem.
  cbn [bind run]. rewrite Ht. change (default [] (Some t)) with t.
  destruct t as [|c t]; [congruence|]. cbn [truthy_string nonempty negb bind run].
  unfold catch_, then_. rewrite run_try_catch, run_bind.
  rewrite run_fetchCurrentUser.
  destruct (snd (run net (fetchCurrentUser env (VString (c :: t))) _))
    as [currentUser|e]; reflexivity.
Qed.

Lemma fetchCurrentUser_rejects (net : request → settled response)
    (env : environment) (token : value) (w : world) :
  resolution_fails (net (current_user_request env token)) →
  ∃ e, snd (run net (fetchCurrentUser env token) w) = Rejected e.
Proof.
  unfold fetchCurrentUser, await_fetch, resolution_fails. cbn [bind run].
  destruct (net (current_user_request env token)) as [resp|e];
    [|intros _; now exists e].
  cbn [resume bind]. intros [Hok|Hjson].
  - rewrite Hok. cbn [negb]. unfold await_json_or_empty. cbn [bind run].
    destruct (json resp) as [v|e]; [destruct v|]; cbn [bind run get];
      eexists; reflexivity.
  - destruct (json resp) as [v|e] eqn:E; [contradiction|].
    destruct (ok resp); cbn [negb].
    + unfold await_json. cbn [bind run]. rewrite E. now exists e.
    + unfold await_json_or_empty. cbn [bind run]. rewrite E.
      eexists; reflexivity.
Qed.

(** C2: with a token in the store, when the identity request fails (the
    network fails, the status is not a success, or the body is not JSON),
    the restore ends with [user] null and the token removed from the store,
    every other entry kept, and its promise is fulfilled: nothing is
    thrown to the caller.  (A request is made for a token that is not the
    empty string.) *)
Theorem restore_clears_rejected_token (net : request → settled response)
    (env : environment) (w : world) (t : jsstring) :
  localStorage w !! js "token" = Some t → t ≠ [] →
  resolution_fails (net (current_user_request env (VString t))) →
  let final := run net (restore env) w in
  user (fst final) = VNull
  ∧ localStorage (fst final) = delete (js "token") (localStorage w)
  ∧ localStorage (fst final) !! js "token" = None
  ∧ snd final = Fulfilled tt.
Proof.
  intros Ht Hne Hfail final. subst final.
  rewrite (run_restore_token net env w t Ht Hne), run_fetchCurrentUser.
  destruct (fetchCurrentUser_rejects net env (VString t)
              (with_isSubscribed true w) Hfail) as [e ->].
  cbn [fst snd]. repeat split. simpl. apply lookup_delete_eq.
Qed.

(** C9: with no token in the store, the restore sets [user] to null and
    ends, its promise fulfilled, without a call of [fetch]. *)
Theorem restore_without_token (net : request → settled response)
    (env : environment) (w : world) :
  localStorage w !! js "token" = None →
  let final := run net (restore env) w in
  user (fst final) = VNull
  ∧ requests (fst final) = requests w
  ∧ localStorage (fst final) = localStorage w
  ∧ snd final = Fulfilled tt.
Proof.
  intros Ht final. subst final.
  rewrite run_restore_no_token by (now rewrite Ht). repeat split.
Qed.

(** C5: from every state, [logout] removes the token from the store, sets
    [user] to null and calls [navigate("/")], without a call of [fetch]
    and without throwing; a second [logout] does the same and leaves the
    store and [user] as the first left them. *)
Theorem logout_always (net : request → settled response) (w : world) :
  let once := run net logout w in
  let twice := run net logout (fst once) in
  snd once = Fulfilled tt
  ∧ localStorage (fst once) = delete (js "token") (localStorage w)
  ∧ localStorage (fst once) !! js "token" = None
  ∧ user (fst once) = VNull
  ∧ navigations (fst once) = navigations w ++ [js "/"]
  ∧ requests (fst once) = requests w
  ∧ snd twice = Fulfilled tt
  ∧ localStorage (fst twice) = localStorage (fst once)
  ∧ user (fst twice) = user (fst once)
  ∧ navigations (fst twice) = navigations (fst once) ++ [js "/"]
  ∧ requests (fst twice) = requests w.
Proof.
  cbn. repeat split.
  - apply lookup_delete_eq.
  - apply delete_id, lookup_delete_eq.
Qed.

(** *** The restore in flight *)

Lemma guarded_true {A : Type} (p : async A) (b : bool) :
  guarded b p → guarded true p.
Proof.
  revert b. induction p as [a|e|req k IH|r k IH|k IH|key k IH|key val k IH
    |key k IH|v k IH|to k IH|k IH|b' k IH]; intros b; cbn [guarded]; eauto.
  - intros [-> H]. auto.
  - intros [-> H]. auto.
  - intros [-> H]. auto.
  - intros [H1 H2]. eauto.
Qed.

Lemma guarded_bind {A B : Type} (p : async A) (f : A → async B) (b : bool) :
  guarded b p → (∀ a, guarded false (f a)) → guarded b (bind p f).
Proof.
  intros Hp Hf. revert b Hp.
  induction p as [a|e|req k IH|r k IH|k IH|key k IH|key val k IH
    |key k IH|v k IH|to k IH|k IH|b' k IH]; intros b; cbn [guarded bind]; eauto.
  - intros _. destruct b; [apply (guarded_true _ false)|]; apply Hf.
  - intros [-> H]. auto.
  - intros [-> H]. auto.
  - intros [-> H]. auto.
  - intros [H1 H2]. auto.
Qed.

Lemma guarded_try_catch {A : Type} (p : async A) (h : error → async A) (b : bool) :
  guarded b p → (∀ e, guarded false (h e)) → guarded b (try_catch p h).
Proof.
  intros Hp Hh. revert b Hp.
  induction p as [a|e|req k IH|r k IH|k IH|key k IH|key val k IH
    |key k IH|v k IH|to k IH|k IH|b' k IH]; intros b; cbn [guarded try_catch]; eauto.
  - intros _. destruct b; [apply (guarded_true _ false)|]; apply Hh.
  - intros [-> H]. auto.
  - intros [-> H]. auto.
  - intros [-> H]. auto.
  - intros [H1 H2]. auto.
Qed.

Lemma guarded_get (v : value) (p : jsstring) (b : bool) : guarded b (get v p).
Proof. destruct v; exact I. Qed.

Lemma guarded_fetchCurrentUser (env : environment) (token : value) :
  guarded false (fetchCurrentUser env token).
Proof.
  unfold fetchCurrentUser, await_fetch. cbn [bind guarded].
  intros [resp|e]; cbn [resume bind guarded]; [|exact I].
  destruct (ok resp); cbn [negb].
  - apply guarded_bind; [intros [v|e]; exact I|]. intros data. apply guarded_get.
  - apply guarded_bind; [intros [v|e]; exact I|]. intros errorBody.
    apply guarded_bind; [apply guarded_get|]. intros msg. exact I.
Qed.

(** What is pending after the mount is guarded. *)
Lemma mount_guarded (env : environment) (w : world) :
  guarded false (snd (mount env w)).
Proof.
  unfold mount, restore, getStoredToken, localStorage_getItem.
  cbn [bind advance].
  destruct (negb (truthy_string (localStorage w !! js "token"))); [exact I|].
  cbn [bind advance].
  assert (H : ∀ token, guarded false
    (catch_
       (then_ (fetchCurrentUser env token)
          (fun currentUser =>
             ReadSubscribed (fun isSubscribed =>
               if isSubscribed then setUser currentUser else Ret tt)))
       (fun _ =>
          ReadSubscribed (fun isSubscribed =>
            if isSubscribed
            then bind (localStorage_removeItem (js "token")) (fun _ => setUser VNull)
            else Ret tt)))).
  { intros token. apply guarded_try_catch; [apply guarded_bind|].
    - apply guarded_fetchCurrentUser.
    - intros currentUser. cbn. auto.
    - intros e. cbn. auto. }
  specialize (H (VString (default [] (localStorage w !! js "token")))).
  revert H. unfold catch_, then_, fetchCurrentUser, await_fetch.
  cbn [bind try_catch advance snd]. auto.
Qed.

(** An uninterrupted run of guarded code leaves guarded code pending. *)
Lemma advance_guarded {A : Type} (p : async A) (b : bool) (w : world) :
  guarded b p → guarded false (snd (advance p w)).
Proof.
  revert b w. induction p as [a|e|req k IH|r k IH|k IH|key k IH|key val k IH
    |key k IH|v k IH|to k IH|k IH|b' k IH]; intros b w; cbn [guarded advance snd];
    eauto.
  - intros [_ H]. eauto.
  - intros [_ H]. eauto.
  - intros [_ H]. eauto.
  - intros [H1 H2]. destruct (isSubscribed w); eauto.
  - contradiction.
Qed.

(** With the flag down, an uninterrupted run of guarded code writes
    neither the store nor [user], and leaves the flag down. *)
Lemma advance_unsubscribed {A : Type} (p : async A) (w : world) :
  guarded false p → isSubscribed w = false →
  localStorage (fst (advance p w)) = localStorage w
  ∧ user (fst (advance p w)) = user w
  ∧ isSubscribed (fst (advance p w)) = false.
Proof.
  revert w. induction p as [a|e|req k IH|r k IH|k IH|key k IH|key val k IH
    |key k IH|v k IH|to k IH|k IH|b' k IH]; intros w; cbn [guarded advance fst];
    auto; try (intros [? _]; discriminate).
  - intros H Hw. destruct (IH (with_navigation to w) H Hw) as (H1 & H2 & H3). auto.
  - intros [_ H] Hw. rewrite Hw. auto.
  - contradiction.
Qed.

Lemma step_guarded (ev : event) (c : world * async unit) :
  guarded false (snd c) → guarded false (snd (step ev c)).
Proof.
  destruct c as [w p]. unfold step. cbn [fst snd].
  destruct ev as [s| |]; destruct p; cbn [guarded snd]; auto;
    intros H; apply (advance_guarded _ false); auto.
Qed.

Lemma step_unsubscribed (ev : event) (c : world * async unit) :
  guarded false (snd c) → isSubscribed (fst c) = false →
  localStorage (fst (step ev c)) = localStorage (fst c)
  ∧ user (fst (step ev c)) = user (fst c)
  ∧ isSubscribed (fst (step ev c)) = false.
Proof.
  destruct c as [w p]. unfold step. cbn [fst snd].
  destruct ev as [s| |]; destruct p; cbn [guarded fst cleanup advance]; auto;
    intros H Hw; apply advance_unsubscribed; auto.
Qed.

Lemma steps_guarded (evs : list event) (c : world * async unit) :
  guarded false (snd c) → guarded false (snd (steps evs c)).
Proof.
  revert c. induction evs as [|ev evs IH]; intros c H; [exact H|].
  apply IH, step_guarded, H.
Qed.

Lemma steps_unsubscribed (evs : list event) (c : world * async unit) :
  guarded false (snd c) → isSubscribed (fst c) = false →
  localStorage (fst (steps evs c)) = localStorage (fst c)
  ∧ user (fst (steps evs c)) = user (fst c).
Proof.
  revert c. induction evs as [|ev evs IH]; intros c H Hw; [auto|].
  destruct (step_unsubscribed ev c H Hw) as (H1 & H2 & H3).
  destruct (IH (step ev c) (step_guarded ev c H) H3) as [H4 H5].
  cbn [steps fold_left]. fold (steps evs (step ev c)).
  rewrite <- H1, <- H2. auto.
Qed.

(** C8: whatever happened between the mount and the teardown, and whatever
    happens after it (the request settles either way, the body is read,
    the reactions run), the store and [user] stay as the teardown found
    them: after [cleanup] the restore writes neither, on the success path
    and on the failure path. *)
Theorem restore_silent_after_teardown (env : environment) (w : world)
    (before after : list event) :
  let torn := step Unmount (steps before (mount env w)) in
  let final := steps after torn in
  localStorage (fst final) = localStorage (fst torn)
  ∧ user (fst final) = user (fst torn).
Proof.
  intros torn final. subst final. apply steps_unsubscribed.
  - apply step_guarded, steps_guarded, mount_guarded.
  - reflexivity.
Qed.

(** The event loop and [run] agree. *)
Lemma finish_advance {A : Type} (net : request → settled response)
    (p : async A) (w : world) :
  finish net (advance p w) = run net p w.
Proof.
  revert w. induction p as [a|e|req k IH|r k IH|k IH|key k IH|key val k IH
    |key k IH|v k IH|to k IH|k IH|b' k IH]; intros w; cbn [advance run]; auto.
Qed.

Lemma finish_step (net : request → settled response) (c : world * async unit) :
  finish net (step (match snd c with
                    | Fetch req _ => Settle (net req)
                    | _ => Turn
                    end) c) = finish net c.
Proof.
  destruct c as [w p]. unfold step. cbn [fst snd].
  destruct p; try reflexivity; rewrite finish_advance; reflexivity.
Qed.

End ProviderFacts.

(** ** The theorems at concrete sessions *)
Section Sessions.
Import Backend Frontend Scenario.
#[local] Existing Instance example_engine.

(** C3 at an origin outside the configured list: the callback refuses it
    and the stack fails before the routes. *)
Lemma origin_gate_foreign_origin :
  origin_callback (Some (js "https://app.example.com")) (Some (js "http://evil.test"))
  = Deny (js "Not allowed by CORS")
  ∧ app (fun req : option jsstring => req) (fun req => Next req)
        (fun req => Next req) (fun _ => Respond tt)
        (Some (js "https://app.example.com")) (Some (js "http://evil.test"))
    = Failure (js "Not allowed by CORS").
Proof.
  destruct (origin_gate_admission (Some (js "https://app.example.com"))
              (Some (js "http://evil.test"))) as (_ & _ & _ & Hverdict & Hstack).
  split.
  - destruct Hverdict as [Hallow|Hdeny]; [|exact Hdeny].
    exfalso. revert Hallow. vm_compute. discriminate.
  - apply Hstack; [reflexivity|]. vm_compute. discriminate.
Defined.

(** C6 at the configured base [" http://api.test/ "]. *)
Lemma buildApiUrl_login :
  BACKEND_URL env = js "http://api.test"
  ∧ buildApiUrl env (js "/login") = js "http://api.test/login"
  ∧ buildApiUrl env (js "login") = js "http://api.test/login".
Proof.
  destruct (buildApiUrl_one_slash env (js "/login")) as (Hurl & _ & _ & Hbase & _).
  destruct (buildApiUrl_one_slash env (js "login")) as (_ & _ & Hbare & _).
  split; [|split].
  - rewrite (Hbase (js " http://api.test/ ")); [reflexivity|reflexivity|].
    vm_compute. discriminate.
  - rewrite Hurl. reflexivity.
  - rewrite Hbare; reflexivity.
Defined.

(** C1 with a server that accepts the credentials and the token. *)
Lemma login_success_accepting :
  let final := run accepting (login env alice secret) fresh in
  snd final = Fulfilled (VString (js ""))
  ∧ localStorage (fst final) !! js "token" = Some (js "abc")
  ∧ user (fst final) = profile
  ∧ navigations (fst final) = [js "/profile"].
Proof.
  apply (login_success accepting env alice secret fresh
           {| ok := true; json := Fulfilled (VObject {[ js "token" := VString (js "abc") ]}) |}
           {[ js "token" := VString (js "abc") ]} (js "abc") profile);
    vm_compute; reflexivity.
Defined.

(** C10 with a server that issues a token it then rejects. *)
Lemma login_issuing_bad_token :
  let final := run issuing_bad_token (login env alice secret) fresh in
  snd final = Fulfilled (VString (js "Unauthorized"))
  ∧ localStorage (fst final) !! js "token" = Some (js "abc")
  ∧ user (fst final) = VNull
  ∧ navigations (fst final) = [].
Proof.
  destruct (login_keeps_token_when_resolution_fails issuing_bad_token env alice secret fresh
           {| ok := true; json := Fulfilled (VObject {[ js "token" := VString (js "abc") ]}) |}
           {[ js "token" := VString (js "abc") ]} (js "abc")
           (Error (js "Unauthorized")))
    as ((m & Hm & _ & ->) & Htok & Huser & Hnav);
    try (vm_compute; reflexivity).
  repeat split; assumption.
Defined.

(** C4 with the 401 and the body [{message: "bad creds"}]. *)
Lemma login_refusing :
  let final := run refusing (login env alice secret) fresh in
  snd final = Fulfilled (VString (js "bad creds"))
  ∧ localStorage (fst final) = localStorage fresh
  ∧ user (fst final) = user fresh
  ∧ navigations (fst final) = navigations fresh.
Proof.
  destruct (login_rejected refusing env alice secret fresh
              {| ok := false;
                 json := Fulfilled (VObject {[ js "message" := VString (js "bad creds") ]}) |}
              eq_refl eq_refl) as (Hstore & Huser & Hnav & Hmsg).
  split; [exact (Hmsg eq_refl)|]. split; [exact Hstore|]. split; [exact Huser|exact Hnav].
Defined.

(** C4 (as stated) fails on a 401 whose body has the message [""]: the
    message is there, and [login] returns the fallback. *)
Lemma login_empty_message_gives_fallback :
  snd (run refusing_silently (login env alice secret) fresh)
  = Fulfilled (VString (js "Failed to login"))
  ∧ refusing_silently (login_request env alice secret)
    = reply false (VObject {[ js "message" := VString (js "") ]})
  ∧ ({[ js "message" := VString (js "") ]} : gmap jsstring value) !! js "message"
    = Some (VString (js ""))
  ∧ (Fulfilled (VString (js "Failed to login")) : settled value)
    ≠ Fulfilled (VString (js "")).
Proof. repeat split; try (vm_compute; reflexivity). discriminate. Qed.

(** C2 with a stale token and a server that answers 401. *)
Lemma restore_stale_token :
  let final := run refusing (restore env) returning in
  user (fst final) = VNull
  ∧ localStorage (fst final) = delete (js "token") (localStorage returning)
  ∧ localStorage (fst final) !! js "token" = None
  ∧ snd final = Fulfilled tt.
Proof.
  apply (restore_clears_rejected_token refusing env returning (js "stale")).
  - vm_compute; reflexivity.
  - discriminate.
  - left. reflexivity.
Defined.

(** C9 in a fresh browser. *)
Lemma restore_fresh :
  let final := run refusing (restore env) fresh in
  user (fst final) = VNull
  ∧ requests (fst final) = requests fresh
  ∧ localStorage (fst final) = localStorage fresh
  ∧ snd final = Fulfilled tt.
Proof. apply (restore_without_token refusing env fresh). reflexivity. Defined.

(** Without a teardown the stale token goes; torn down while the request
    is in flight, the provider keeps it. *)
Example restore_in_flight :
  localStorage (fst (steps [Settle (refusing (current_user_request env (VString (js "stale"))));
                            Turn; Turn]
                       (mount env returning))) !! js "token" = None
  ∧ localStorage (fst (steps [Unmount;
                              Settle (refusing (current_user_request env (VString (js "stale"))));
                              Turn; Turn]
                         (mount env returning))) !! js "token" = Some (js "stale").
Proof. split; vm_compute; reflexivity. Qed.

(** C8 with the teardown right after the mount: the rejection that comes
    later removes nothing. *)
Lemma restore_torn_down_keeps_token :
  let torn := step Unmount (steps [] (mount env returning)) in
  let final :=
    steps [Settle (refusing (current_user_request env (VString (js "stale"))));
           Turn; Turn] torn in
  localStorage (fst final) = localStorage (fst torn)
  ∧ user (fst final) = user (fst torn)
  ∧ localStorage (fst final) !! js "token" = Some (js "stale").
Proof.
  pose proof (restore_silent_after_teardown env returning []
                [Settle (refusing (current_user_request env (VString (js "stale"))));
                 Turn; Turn]) as H.
  cbv zeta in H. destruct H as [Hstore Huser].
  split; [exact Hstore|]. split; [exact Huser|]. vm_compute. reflexivity.
Defined.

End Sessions.

(** ** More on the origin gate *)
Section MoreGateFacts.
Import Backend.

Lemma trimStart_app_blank (pre x : jsstring) :
  Forall (fun c => is_white_space c = true) pre →
  trimStart (pre ++ x) = trimStart x.
Proof.
  induction 1 as [|c pre Hc Hpre IH]; [reflexivity|].
  cbn [Datatypes.app trimStart]. rewrite Hc. exact IH.
Qed.

Lemma trimStart_blank (post : jsstring) :
  Forall (fun c => is_white_space c = true) post → trimStart post = [].
Proof.
  intros H. rewrite <- (app_nil_r post). now rewrite trimStart_app_blank.
Qed.

Lemma trimEnd_app_blank (x post : jsstring) :
  Forall (fun c => is_white_space c = true) post →
  trimEnd (x ++ post) = trimEnd x.
Proof.
  intros H. unfold trimEnd. rewrite rev_app_distr, trimStart_app_blank; [reflexivity|].
  apply Forall_forall. intros c Hc. apply (proj1 (Forall_forall _ _) H).
  apply list_elem_of_In. apply list_elem_of_In in Hc. now apply in_rev.
Qed.

(** White space around a string that starts clean does not show after the
    trim. *)
Lemma trim_padded (pre x post : jsstring) :
  Forall (fun c => is_white_space c = true) pre →
  Forall (fun c => is_white_space c = true) post →
  starts_clean x →
  trim (pre ++ x ++ post) = trim x.
Proof.
  intros Hpre Hpost Hx. unfold trim. rewrite trimStart_app_blank by exact Hpre.
  destruct x as [|c x]; cbn [Datatypes.app].
  - rewrite (trimStart_blank post Hpost). reflexivity.
  - cbn [starts_clean] in Hx. cbn [trimStart]. rewrite Hx.
    change (c :: x ++ post) with ((c :: x) ++ post).
    now rewrite trimEnd_app_blank.
Qed.

Lemma trim_snoc_slash (o : jsstring) :
  starts_clean o → trim (o ++ [slash]) = o ++ [slash].
Proof.
  intros Ho. unfold trim.
  assert (Hs : starts_clean (o ++ [slash])) by (destruct o; [reflexivity|exact Ho]).
  rewrite (trimStart_fixed _ Hs). unfold trimEnd.
  rewrite rev_app_distr. cbn [rev Datatypes.app trimStart].
  change (is_white_space slash) with false. cbn iota.
  change (slash :: rev o) with (rev [slash] ++ rev o).
  rewrite <- rev_app_distr. apply rev_involutive.
Qed.

(** X16: an origin that neither starts nor ends in white space and does not
    end in a slash is what [sanitizeOrigin] gives for it, for it with a
    trailing slash, and for either with white space around. *)
Theorem sanitizeOrigin_normal_form (pre o post : jsstring) :
  Forall (fun c => is_white_space c = true) pre →
  Forall (fun c => is_white_space c = true) post →
  starts_clean o → ends_clean o = true →
  sanitizeOrigin (Some (pre ++ o ++ post)) = o
  ∧ sanitizeOrigin (Some (pre ++ (o ++ [slash]) ++ post)) = o.
Proof.
  intros Hpre Hpost Hs He. cbn [sanitizeOrigin]. split.
  - rewrite (trim_padded pre o post Hpre Hpost Hs). now apply clean_fixed.
  - rewrite (trim_padded pre (o ++ [slash]) post Hpre Hpost)
      by (destruct o; [reflexivity|exact Hs]).
    rewrite (trim_snoc_slash o Hs). apply replace_trailing_slash_snoc.
Qed.

(** No member of the allow set is the empty string. *)
Lemma allowedOrigins_nonempty (FRONTEND_URL : option jsstring) :
  [] ∉ allowedOrigins FRONTEND_URL.
Proof.
  rewrite elem_of_allowedOrigins. intros [H|H].
  - apply list_elem_of_In in H. vm_compute in H. intuition discriminate.
  - unfold configuredOrigins in H. apply list_elem_of_In, filter_In in H.
    destruct H as [_ H]. discriminate.
Qed.

Lemma origin_callback_nonempty (FRONTEND_URL : option jsstring) (o : jsstring) :
  o ≠ [] →
  origin_callback FRONTEND_URL (Some o) =
    if allowAllOrigins FRONTEND_URL
       || bool_decide (sanitizeOrigin (Some o) ∈ allowedOrigins FRONTEND_URL)
    then Allow else Deny (js "Not allowed by CORS").
Proof. destruct o; [congruence|reflexivity]. Qed.

(** X17: the four development origins are admitted whatever is configured,
    with or without a trailing slash. *)
Theorem default_origins_admitted (FRONTEND_URL : option jsstring) :
  Forall (fun o => origin_callback FRONTEND_URL (Some o) = Allow
                   ∧ origin_callback FRONTEND_URL (Some (o ++ [slash])) = Allow)
    DEFAULT_ALLOWED_ORIGINS.
Proof.
  assert (H : ∀ o, sanitizeOrigin (Some o) ∈ defaultOrigins →
                   origin_callback FRONTEND_URL (Some o) = Allow).
  { intros o Ho. apply origin_callback_Allow. right. right.
    apply elem_of_allowedOrigins. now left. }
  repeat constructor; apply H; apply list_elem_of_In; vm_compute; tauto.
Qed.

(** X18: a request is admitted when its origin normalizes to the same
    non-empty string as an entry of the configured list. *)
Theorem configured_origin_admitted (FRONTEND_URL : option jsstring)
    (entry o : jsstring) :
  entry ∈ split_comma (default [] FRONTEND_URL) →
  sanitizeOrigin (Some entry) ≠ [] →
  sanitizeOrigin (Some o) = sanitizeOrigin (Some entry) →
  origin_callback FRONTEND_URL (Some o) = Allow.
Proof.
  intros Hin Hne Heq. apply origin_callback_Allow. right. right.
  rewrite Heq. apply elem_of_allowedOrigins. right.
  unfold configuredOrigins. apply list_elem_of_In, filter_In. split.
  - apply in_map_iff. exists entry. split; [reflexivity|now apply list_elem_of_In].
  - destruct (sanitizeOrigin (Some entry)); [congruence|reflexivity].
Qed.

(** X19: when [FRONTEND_URL] is unset, or every entry of it normalizes to
    the empty string, every request is admitted, whatever its origin. *)
Theorem unconfigured_gate_admits_all (FRONTEND_URL origin : option jsstring) :
  Forall (fun entry => sanitizeOrigin (Some entry) = [])
    (split_comma (default [] FRONTEND_URL)) →
  origin_callback FRONTEND_URL origin = Allow.
Proof.
  intros H. apply origin_callback_Allow. right. left.
  rewrite allowAllOrigins_iff. unfold configuredOrigins.
  rewrite filter_nil_Forall, Forall_map.
  eapply Forall_impl; [exact H|]. intros entry E. now apply nonempty_false.
Qed.

(** X20: with a list configured, an [Origin] header that is not empty but
    normalizes to the empty string (white space, a lone slash) is
    refused. *)
Theorem blank_origin_refused (FRONTEND_URL : option jsstring) (o : jsstring) :
  allowAllOrigins FRONTEND_URL = false →
  o ≠ [] →
  sanitizeOrigin (Some o) = [] →
  origin_callback FRONTEND_URL (Some o) = Deny (js "Not allowed by CORS").
Proof.
  intros Hall Hne Hblank.
  rewrite (origin_callback_nonempty _ o Hne), Hall, Hblank.
  rewrite bool_decide_eq_false_2; [reflexivity|apply allowedOrigins_nonempty].
Qed.

(** X21: two [Origin] headers that are not empty and normalize to the same
    string get the same verdict. *)
Theorem verdict_by_normalized_origin (FRONTEND_URL : option jsstring)
    (o1 o2 : jsstring) :
  o1 ≠ [] → o2 ≠ [] →
  sanitizeOrigin (Some o1) = sanitizeOrigin (Some o2) →
  origin_callback FRONTEND_URL (Some o1) = origin_callback FRONTEND_URL (Some o2).
Proof.
  intros H1 H2 Heq.
  rewrite (origin_callback_nonempty _ o1 H1), (origin_callback_nonempty _ o2 H2), Heq.
  reflexivity.
Qed.

End MoreGateFacts.

(** ** More on the session provider *)
Section MoreProviderFacts.
Import Frontend.
Context {engine : Engine}.

Lemma or_else_truthy (a b : value) : truthy b = true → truthy (or_else a b) = true.
Proof. intros Hb. unfold or_else. destruct (truthy a) eqn:Ha; assumption. Qed.

Lemma message_or_truthy (e : error) (fallback : jsstring) :
  nonempty fallback = true → truthy (message_or e fallback) = true.
Proof. intros H. apply or_else_truthy. exact H. Qed.

Lemma supplied_message_truthy (resp : response) (fallback : jsstring) :
  nonempty fallback = true →
  truthy (default (VString fallback) (supplied_message resp)) = true.
Proof.
  intros H. unfold supplied_message.
  destruct (json resp) as [[| |b|n|s|elements|props]|e]; try exact H.
  destruct (props !! js "message") as [m|]; [|exact H].
  destruct (truthy m) eqn:Hm; [exact Hm|exact H].
Qed.

Lemma get_cases (v : value) (p : jsstring) :
  (∃ x, get v p = Ret x) ∨ (∃ e, get v p = Throw e).
Proof. destruct v; cbn [get]; eauto. Qed.

Lemma fetchCurrentUser_token_text (env : environment) (token : value) :
  fetchCurrentUser env (VString (ToString token)) = fetchCurrentUser env token.
Proof. reflexivity. Qed.

(** *** [login], whatever the network answers *)

Lemma run_login_unanswered (net : request → settled response) (env : environment)
    (username password : value) (w : world) (e : error) :
  net (login_request env username password) = Rejected e →
  run net (login env username password) w =
    (with_request (login_request env username password) w,
     Fulfilled (message_or e (js "Failed to login"))).
Proof.
  intros Hnet. unfold login, await_fetch. cbn [bind try_catch run].
  rewrite Hnet. reflexivity.
Qed.

Lemma run_login_unparsable (net : request → settled response) (env : environment)
    (username password : value) (w : world) (resp : response) (e : error) :
  net (login_request env username password) = Fulfilled resp →
  ok resp = true →
  json resp = Rejected e →
  run net (login env username password) w =
    (with_request (login_request env username password) w,
     Fulfilled (message_or e (js "Failed to login"))).
Proof.
  intros Hnet Hok Hjson. unfold login, await_fetch. cbn [bind try_catch run].
  rewrite Hnet. cbn [resume bind]. rewrite Hok. cbn [negb].
  unfold await_json. cbn [bind try_catch run]. rewrite Hjson. reflexivity.
Qed.

Lemma run_login_no_token_read (net : request → settled response) (env : environment)
    (username password : value) (w : world) (resp : response) (data : value)
    (e : error) :
  net (login_request env username password) = Fulfilled resp →
  ok resp = true →
  json resp = Fulfilled data →
  get data (js "token") = Throw e →
  run net (login env username password) w =
    (with_request (login_request env username password) w,
     Fulfilled (message_or e (js "Failed to login"))).
Proof.
  intros Hnet Hok Hjson Hget. unfold login, await_fetch. cbn [bind try_catch run].
  rewrite Hnet. cbn [resume bind]. rewrite Hok. cbn [negb].
  unfold await_json. cbn [bind try_catch run]. rewrite Hjson. cbn [resume bind].
  rewrite Hget. reflexivity.
Qed.

(** The three ways a [login] ends. *)
Lemma run_login_cases (net : request → settled response) (env : environment)
    (username password : value) (w : world) :
  (∃ v, truthy v = true
        ∧ run net (login env username password) w
          = (with_request (login_request env username password) w, Fulfilled v))
  ∨ (∃ token e,
        snd (run net (fetchCurrentUser env token) w) = Rejected e
        ∧ run net (login env username password) w
          = (with_request (current_user_request env token)
               (token_stored env username password (ToString token) w),
             Fulfilled (message_or e (js "Failed to login"))))
  ∨ (∃ token currentUser,
        snd (run net (fetchCurrentUser env token) w) = Fulfilled currentUser
        ∧ run net (login env username password) w
          = (with_navigation (js "/profile")
               (with_user currentUser
                  (with_request (current_user_request env token)
                     (token_stored env username password (ToString token) w))),
             Fulfilled (VString (js "")))).
Proof.
  destruct (net (login_request env username password)) as [resp|e] eqn:Hnet.
  2:{ left. exists (message_or e (js "Failed to login")).
      split; [now apply message_or_truthy|].
      exact (run_login_unanswered net env username password w e Hnet). }
  destruct (ok resp) eqn:Hok.
  2:{ left. rewrite (run_login_rejected net env username password w resp Hnet Hok).
      eexists. split; [|reflexivity].
      destruct (json resp) as [[| |b|n|s|elements|props]|e] eqn:Hjson;
        try (now apply message_or_truthy); now apply supplied_message_truthy. }
  destruct (json resp) as [data|e] eqn:Hjson.
  2:{ left. exists (message_or e (js "Failed to login")).
      split; [now apply message_or_truthy|].
      exact (run_login_unparsable net env username password w resp e Hnet Hok Hjson). }
  destruct (get_cases data (js "token")) as [[token Hget]|[e Hget]].
  2:{ left. exists (message_or e (js "Failed to login")).
      split; [now apply message_or_truthy|].
      exact (run_login_no_token_read net env username password w resp data e
               Hnet Hok Hjson Hget). }
  right.
  rewrite (run_login_ok net env username password w resp data token Hnet Hok Hjson Hget).
  rewrite run_fetchCurrentUser.
  rewrite (fetchCurrentUser_outcome net env token _ w).
  destruct (snd (run net (fetchCurrentUser env token) w)) as [currentUser|e] eqn:Hwho.
  - right. exists token, currentUser. split; [exact Hwho|reflexivity].
  - left. exists token, e. split; [exact Hwho|reflexivity].
Qed.

(** X1: [login] never rejects.  Either it returns the empty string, and
    then a token is stored and the last call of [navigate] was to
    ["/profile"]; or it returns a truthy value, and then [user] and the
    navigation are as before.  (The truthy value need not be a string: a
    truthy [message] of the body is returned as it is.)  So [login] returns
    the empty string exactly when it has navigated. *)
Theorem login_outcome (net : request → settled response) (env : environment)
    (username password : value) (w : world) :
  let final := run net (login env username password) w in
  ((snd final = Fulfilled (VString (js ""))
    ∧ is_Some (localStorage (fst final) !! js "token")
    ∧ navigations (fst final) = navigations w ++ [js "/profile"])
   ∨ (∃ v, snd final = Fulfilled v ∧ truthy v = true
           ∧ user (fst final) = user w
           ∧ navigations (fst final) = navigations w))
  ∧ (snd final = Fulfilled (VString (js ""))
     ↔ navigations (fst final) = navigations w ++ [js "/profile"]).
Proof.
  intros final. subst final.
  assert (Hgrow : ∀ l : list jsstring, l ≠ l ++ [js "/profile"]).
  { intros l H. apply (f_equal (@length jsstring)) in H.
    rewrite length_app in H. cbn in H. lia. }
  destruct (run_login_cases net env username password w)
    as [(v & Hv & ->)|[(token & e & _ & ->)|(token & who & _ & ->)]]; cbn [fst snd].
  - split.
    + right. exists v. repeat split. exact Hv.
    + split; [intros [= ->]; discriminate|intros H; now apply Hgrow in H].
  - pose proof (message_or_truthy e (js "Failed to login") eq_refl) as Ht. split.
    + right. eexists. repeat split. exact Ht.
    + split; [|intros H; cbn in H; now apply Hgrow in H].
      intros H.
      assert (E : message_or e (js "Failed to login") = VString (js ""))
        by congruence.
      rewrite E in Ht. discriminate.
  - split; [|now split].
    left. repeat split. cbn. rewrite lookup_insert_eq. eauto.
Qed.

(** X2: when the login request gets no response, or a success response
    whose body is not JSON, [login] returns the message of the error, or
    ["Failed to login"] for an empty message; it has issued the one
    request and changed nothing else. *)
Theorem login_transport_failure (net : request → settled response)
    (env : environment) (username password : value) (w : world) (e : error) :
  net (login_request env username password) = Rejected e
  ∨ (∃ resp, net (login_request env username password) = Fulfilled resp
             ∧ ok resp = true ∧ json resp = Rejected e) →
  run net (login env username password) w =
    (with_request (login_request env username password) w,
     Fulfilled (VString (if nonempty (message e) then message e
                         else js "Failed to login"))).
Proof.
  intros [Hnet|(resp & Hnet & Hok & Hjson)].
  - rewrite (run_login_unanswered net env username password w e Hnet).
    unfold message_or, or_else. cbn [truthy]. now destruct (nonempty (message e)).
  - rewrite (run_login_unparsable net env username password w resp e Hnet Hok Hjson).
    unfold message_or, or_else. cbn [truthy]. now destruct (nonempty (message e)).
Qed.

(** X3: when the login endpoint answers with a success whose body is an
    object without a [token], [login] stores the string ["undefined"] under
    ["token"] and asks for the current user with [Bearer undefined]. *)
Theorem login_without_token_stores_undefined (net : request → settled response)
    (env : environment) (username password : value) (w : world)
    (resp : response) (props : gmap jsstring value) :
  net (login_request env username password) = Fulfilled resp →
  ok resp = true →
  json resp = Fulfilled (VObject props) →
  props !! js "token" = None →
  let final := run net (login env username password) w in
  localStorage (fst final) !! js "token" = Some (js "undefined")
  ∧ requests (fst final)
    = requests w ++ [login_request env username password;
                     current_user_request env VUndefined]
  ∧ headers (current_user_request env VUndefined)
    = [(js "Authorization", js "Bearer undefined")].
Proof.
  intros Hnet Hok Hjson Htok final. subst final.
  rewrite (run_login_ok net env username password w resp (VObject props) VUndefined)
    by (try assumption; cbn [get]; now rewrite Htok).
  rewrite run_fetchCurrentUser.
  destruct (snd (run net (fetchCurrentUser env VUndefined) _)) as [who|e];
    cbn [fst snd]; (split; [cbn; apply lookup_insert_eq|]); split; try reflexivity;
    cbn; now rewrite <- app_assoc.
Qed.

(** *** [register], whatever the network answers *)

Lemma run_register_cases (net : request → settled response) (env : environment)
    (userData : value) (w : world) :
  (answered_ok (net (register_request env userData)) = true
   ∧ run net (register env userData) w
     = (with_navigation (js "/success")
          (with_request (register_request env userData) w),
        Fulfilled (VString (js ""))))
  ∨ (answered_ok (net (register_request env userData)) = false
     ∧ ∃ v, truthy v = true
            ∧ run net (register env userData) w
              = (with_request (register_request env userData) w, Fulfilled v)).
Proof.
  unfold register, await_fetch. cbn [bind try_catch run].
  destruct (net (register_request env userData)) as [resp|e] eqn:Hnet;
    cbn [resume bind try_catch run answered_ok].
  2:{ right. split; [reflexivity|]. eexists. split; [|reflexivity].
      now apply message_or_truthy. }
  destruct (ok resp) eqn:Hok; cbn [negb].
  - left. split; reflexivity.
  - right. split; [reflexivity|].
    unfold await_json_or_empty. cbn [bind try_catch run].
    destruct (json resp) as [[| |b|n|s|elements|props]|e];
      cbn [bind get try_catch run];
      (eexists; split; [|reflexivity]);
      try (now apply message_or_truthy); now apply or_else_truthy.
Qed.

(** X4: [register] never rejects and never writes the store or [user]; it
    issues one request.  When the endpoint answers with a success it calls
    [navigate("/success")] and returns the empty string; when the endpoint
    answers otherwise, or not at all, it returns a truthy value and does
    not navigate.  So it returns the empty string exactly when the endpoint
    answered with a success. *)
Theorem register_outcome (net : request → settled response) (env : environment)
    (userData : value) (w : world) :
  let final := run net (register env userData) w in
  localStorage (fst final) = localStorage w
  ∧ user (fst final) = user w
  ∧ requests (fst final) = requests w ++ [register_request env userData]
  ∧ ((answered_ok (net (register_request env userData)) = true
      ∧ snd final = Fulfilled (VString (js ""))
      ∧ navigations (fst final) = navigations w ++ [js "/success"])
     ∨ (answered_ok (net (register_request env userData)) = false
        ∧ navigations (fst final) = navigations w
        ∧ ∃ v, snd final = Fulfilled v ∧ truthy v = true))
  ∧ (snd final = Fulfilled (VString (js ""))
     ↔ answered_ok (net (register_request env userData)) = true).
Proof.
  intros final. subst final.
  destruct (run_register_cases net env userData w)
    as [(Hok & ->)|(Hok & v & Hv & ->)]; cbn [fst snd];
    (split; [reflexivity|]); (split; [reflexivity|]); (split; [reflexivity|]).
  - split; [left; now repeat split|]. now split.
  - split; [right; split; [exact Hok|]; split; [reflexivity|]; now exists v|].
    rewrite Hok. split; [|discriminate].
    intros [= ->]. discriminate.
Qed.

(** X5: when the registration endpoint answers with a response that is not
    a success, [register] returns the [message] of the body when the body
    is an object whose [message] is truthy, and ["Failed to register"] when
    the body cannot be parsed, or has no truthy [message]; it does not
    navigate. *)
Theorem register_rejected (net : request → settled response) (env : environment)
    (userData : value) (w : world) (resp : response) :
  net (register_request env userData) = Fulfilled resp →
  ok resp = false →
  nullish (json resp) = false →
  run net (register env userData) w =
    (with_request (register_request env userData) w,
     Fulfilled (default (VString (js "Failed to register")) (supplied_message resp))).
Proof.
  intros Hnet Hok Hnull. unfold register, await_fetch, supplied_message.
  cbn [bind try_catch run]. rewrite Hnet. cbn [resume bind]. rewrite Hok. cbn [negb].
  unfold await_json_or_empty. cbn [bind try_catch run].
  destruct (json resp) as [[| |b|n|s|elements|props]|e]; try discriminate;
    try reflexivity.
  cbn [bind get try_catch run]. unfold or_else.
  destruct (props !! js "message") as [m|]; cbn [default from_option id];
    [destruct (truthy m)|]; reflexivity.
Qed.

(** *** [restore], whatever the network answers *)

Lemma run_restore_accepted (net : request → settled response)
    (env : environment) (w : world) (t : jsstring) (who : value) :
  localStorage w !! js "token" = Some t → t ≠ [] →
  snd (run net (fetchCurrentUser env (VString t)) w) = Fulfilled who →
  run net (restore env) w =
    (with_user who
       (with_request (current_user_request env (VString t)) (with_isSubscribed true w)),
     Fulfilled tt).
Proof.
  intros Ht Hne Hwho.
  rewrite (run_restore_token net env w t Ht Hne), run_fetchCurrentUser.
  rewrite (fetchCurrentUser_outcome net env (VString t) _ w), Hwho.
  reflexivity.
Qed.

(** X6: with a token in the store that the identity endpoint accepts, the
    restore sets [user] to the resolved identity and keeps the store as it
    is; it issues the one request, with the token as bearer, and does not
    navigate. *)
Theorem restore_accepts_token (net : request → settled response)
    (env : environment) (w : world) (t : jsstring) (who : value) :
  localStorage w !! js "token" = Some t → t ≠ [] →
  snd (run net (fetchCurrentUser env (VString t)) w) = Fulfilled who →
  let final := run net (restore env) w in
  user (fst final) = who
  ∧ localStorage (fst final) = localStorage w
  ∧ requests (fst final) = requests w ++ [current_user_request env (VString t)]
  ∧ navigations (fst final) = navigations w
  ∧ snd final = Fulfilled tt.
Proof.
  intros Ht Hne Hwho final. subst final.
  rewrite (run_restore_accepted net env w t who Ht Hne Hwho). repeat split.
Qed.

Lemma run_restore_cases (net : request → settled response)
    (env : environment) (w : world) :
  (truthy_string (localStorage w !! js "token") = false
   ∧ run net (restore env) w = (with_user VNull w, Fulfilled tt))
  ∨ (∃ t, localStorage w !! js "token" = Some t ∧ t ≠ []
          ∧ ((∃ who, snd (run net (fetchCurrentUser env (VString t)) w) = Fulfilled who
                     ∧ run net (restore env) w
                       = (with_user who
                            (with_request (current_user_request env (VString t))
                               (with_isSubscribed true w)),
                          Fulfilled tt))
             ∨ (∃ e, snd (run net (fetchCurrentUser env (VString t)) w) = Rejected e
                     ∧ run net (restore env) w
                       = (with_user VNull
                            (with_localStorage (delete (js "token") (localStorage w))
                               (with_request (current_user_request env (VString t))
                                  (with_isSubscribed true w))),
                          Fulfilled tt)))).
Proof.
  destruct (localStorage w !! js "token") as [t|] eqn:Ht.
  2:{ left. split; [reflexivity|]. apply run_restore_no_token. now rewrite Ht. }
  destruct t as [|c t].
  { left. split; [reflexivity|]. apply run_restore_no_token. now rewrite Ht. }
  right. exists (c :: t). split; [reflexivity|]. split; [discriminate|].
  assert (Hne : c :: t ≠ []) by discriminate.
  pose proof (run_restore_token net env w (c :: t) Ht Hne) as Hrun.
  rewrite run_fetchCurrentUser in Hrun.
  rewrite (fetchCurrentUser_outcome net env (VString (c :: t))
             (with_isSubscribed true w) w) in Hrun.
  destruct (snd (run net (fetchCurrentUser env (VString (c :: t))) w)) as [who|e].
  - left. exists who. split; [reflexivity|exact Hrun].
  - right. exists e. split; [reflexivity|exact Hrun].
Qed.

(** X7: the restore never rejects and never navigates, and it issues at
    most one request; when it ends, a truthy [user] has its token in the
    store. *)
Theorem restore_outcome (net : request → settled response)
    (env : environment) (w : world) :
  let final := run net (restore env) w in
  snd final = Fulfilled tt
  ∧ navigations (fst final) = navigations w
  ∧ (requests (fst final) = requests w
     ∨ ∃ t, requests (fst final) = requests w ++ [current_user_request env (VString t)])
  ∧ session_consistent (fst final).
Proof.
  intros final. subst final. unfold session_consistent.
  destruct (run_restore_cases net env w)
    as [[_ ->]|(t & Ht & Hne & [(who & _ & ->)|(e & _ & ->)])]; cbn [fst snd];
    repeat split; cbn; eauto; discriminate.
Qed.

(** X8: a store that holds the empty string under ["token"] counts as
    holding no token: the restore sets [user] to null without a request,
    and the empty entry stays. *)
Theorem restore_empty_token (net : request → settled response)
    (env : environment) (w : world) :
  localStorage w !! js "token" = Some (js "") →
  let final := run net (restore env) w in
  user (fst final) = VNull
  ∧ requests (fst final) = requests w
  ∧ localStorage (fst final) !! js "token" = Some (js "")
  ∧ snd final = Fulfilled tt.
Proof.
  intros Ht final. subst final.
  rewrite run_restore_no_token by (now rewrite Ht). repeat split. exact Ht.
Qed.

(** *** The session across operations *)


(** X10: after a [login] that returned the empty string and stored a token
    that is not empty, a reload of the page (any state with the same
    store) restores the same [user], the network answering as before. *)
Theorem login_then_reload (net : request → settled response)
    (env : environment) (username password : value) (w w' : world) (t : jsstring) :
  snd (run net (login env username password) w) = Fulfilled (VString (js "")) →
  localStorage (fst (run net (login env username password) w)) !! js "token" = Some t →
  t ≠ [] →
  localStorage w' = localStorage (fst (run net (login env username password) w)) →
  user (fst (run net (restore env) w'))
  = user (fst (run net (login env username password) w))
  ∧ localStorage (fst (run net (restore env) w')) = localStorage w'.
Proof.
  destruct (run_login_cases net env username password w)
    as [(v & Hv & ->)|[(token & e & _ & ->)|(token & who & Hwho & ->)]]; cbn [fst snd].
  - intros [= ->]. discriminate.
  - intros [= H]. exfalso.
    pose proof (message_or_truthy e (js "Failed to login") eq_refl) as Ht.
    rewrite H in Ht. discriminate.
  - intros _ Htok Hne Hstore. cbn in Htok. rewrite lookup_insert_eq in Htok.
    injection Htok as <-.
    assert (Hstored : localStorage w' !! js "token" = Some (ToString token)).
    { rewrite Hstore. cbn. apply lookup_insert_eq. }
    rewrite (run_restore_accepted net env w' (ToString token) who Hstored Hne).
    + split; reflexivity.
    + rewrite fetchCurrentUser_token_text.
      rewrite (fetchCurrentUser_outcome net env token w' w). exact Hwho.
Qed.

(** X11: after a [logout], a reload of the page (any state with the store
    the logout left) ends with [user] null and makes no request. *)
Theorem logout_then_reload (net : request → settled response)
    (env : environment) (w w' : world) :
  localStorage w' = localStorage (fst (run net logout w)) →
  run net (restore env) w' = (with_user VNull w', Fulfilled tt).
Proof.
  intros Hstore. apply run_restore_no_token. rewrite Hstore. cbn.
  now rewrite lookup_delete_eq.
Qed.

(** *** [fetchCurrentUser] *)

(** X12: on a success response whose body is an object, [fetchCurrentUser]
    fulfils with the [user] property of the body, and with [undefined]
    when the body has none; it has issued the one request and touched
    nothing else. *)
Theorem fetchCurrentUser_reads_user (net : request → settled response)
    (env : environment) (token : value) (w : world)
    (resp : response) (props : gmap jsstring value) :
  net (current_user_request env token) = Fulfilled resp →
  ok resp = true →
  json resp = Fulfilled (VObject props) →
  run net (fetchCurrentUser env token) w =
    (with_request (current_user_request env token) w,
     Fulfilled (default VUndefined (props !! js "user"))).
Proof.
  intros Hnet Hok Hjson. unfold fetchCurrentUser, await_fetch. cbn [bind run].
  rewrite Hnet. cbn [resume bind]. rewrite Hok. cbn [negb].
  unfold await_json. cbn [bind run]. rewrite Hjson. reflexivity.
Qed.

(** X13: on a response that is not a success, [fetchCurrentUser] rejects
    with an error whose message is the body's [message] when the body is an
    object whose [message] is a string that is not empty, and
    ["Failed to fetch user"] when the body cannot be parsed, is not an
    object, or has no truthy [message].  (A truthy [message] that is not a
    string, and the body [null], are not part of the statement.) *)
Theorem fetchCurrentUser_rejection (net : request → settled response)
    (env : environment) (token : value) (w : world) (resp : response) :
  net (current_user_request env token) = Fulfilled resp →
  ok resp = false →
  nullish (json resp) = false →
  (∀ m, supplied_message resp = Some m → ∃ s, m = VString s) →
  run net (fetchCurrentUser env token) w =
    (with_request (current_user_request env token) w,
     Rejected (Error match supplied_message resp with
                     | Some (VString s) => s
                     | _ => js "Failed to fetch user"
                     end)).
Proof.
  intros Hnet Hok Hnull Htext. revert Htext.
  unfold fetchCurrentUser, await_fetch, supplied_message.
  cbn [bind run]. rewrite Hnet. cbn [resume bind]. rewrite Hok. cbn [negb].
  unfold await_json_or_empty. cbn [bind run].
  destruct (json resp) as [[| |b|n|s|elements|props]|e]; try discriminate;
    try reflexivity.
  cbn [bind get run]. unfold throw_new_Error, or_else.
  destruct (props !! js "message") as [m|]; cbn [default from_option id];
    [|reflexivity].
  destruct (truthy m) eqn:Hm; [|reflexivity].
  intros Htext. destruct (Htext m eq_refl) as [s ->]. reflexivity.
Qed.

(** *** Addresses *)

Lemma buildApiUrl_shape (env : environment) (path : jsstring) :
  buildApiUrl env path = BACKEND_URL env ++ slash :: without_leading_slash path.
Proof.
  unfold buildApiUrl. destruct path as [|c rest]; [reflexivity|].
  cbn [startsWith_slash without_leading_slash].
  destruct (c =? slash) eqn:E; [|reflexivity].
  apply N.eqb_eq in E. now subst c.
Qed.

(** X14: two paths give the same URL exactly when they are equal after the
    leading slash of each, if it has one, is dropped. *)
Theorem buildApiUrl_same_url_iff (env : environment) (path1 path2 : jsstring) :
  buildApiUrl env path1 = buildApiUrl env path2
  ↔ without_leading_slash path1 = without_leading_slash path2.
Proof.
  rewrite !buildApiUrl_shape. split.
  - intros H. apply app_inv_head in H. now injection H.
  - now intros ->.
Qed.

Lemma replace_trailing_slash_nil (x : jsstring) :
  replace_trailing_slash x = [] → x = [] ∨ x = [slash].
Proof.
  unfold replace_trailing_slash. destruct (rev x) as [|c r] eqn:E; [now left|].
  destruct (rev_cons_snoc _ _ _ E) as [Hx _].
  destruct (c =? slash) eqn:Hc.
  - intros Hr. right. apply N.eqb_eq in Hc. subst c. rewrite Hx, Hr. reflexivity.
  - intros ->. now left.
Qed.

(** X15: the backend base is the empty string, and every URL then relative,
    exactly when the configured URL is a lone slash (within white space). *)
Theorem BACKEND_URL_empty_iff (env : environment) :
  BACKEND_URL env = []
  ↔ ∃ u, VITE_BACKEND_URL env = Some u ∧ trim u = [slash].
Proof.
  unfold BACKEND_URL. split.
  - unfold resolveBackendUrl.
    destruct (VITE_BACKEND_URL env) as [u|] eqn:Hu.
    + change (default [] (Some u)) with u.
      destruct (truthy_string (Some u) && (0 <? N.of_nat (length (trim u)))) eqn:Hc.
      * intros Hr. exists u. split; [reflexivity|].
        destruct (replace_trailing_slash_nil _ Hr) as [Hnil|Hone]; [|exact Hone].
        rewrite Hnil in Hc. rewrite andb_comm in Hc. discriminate.
      * destruct (window_location_origin env) as [[|c o]|]; discriminate.
    + cbn [truthy_string andb].
      destruct (window_location_origin env) as [[|c o]|]; discriminate.
  - intros (u & Hu & Htrim).
    rewrite (resolveBackendUrl_configured env u Hu) by (rewrite Htrim; discriminate).
    rewrite Htrim. reflexivity.
Qed.

End MoreProviderFacts.

(** ** More theorems at concrete sessions *)
Section MoreSessions.
Import Backend Frontend Scenario.
#[local] Existing Instance example_engine.

(** X16 at: an origin between a space and a tab, with and without its slash. *)
Lemma sanitizeOrigin_padded_origin :
  sanitizeOrigin (Some ([32] ++ js "https://app.test" ++ [9])) = js "https://app.test"
  ∧ sanitizeOrigin (Some ([32] ++ (js "https://app.test" ++ [slash]) ++ [9]))
    = js "https://app.test".
Proof.
  apply (sanitizeOrigin_normal_form [32] (js "https://app.test") [9]).
  - constructor; [reflexivity|constructor].
  - constructor; [reflexivity|constructor].
  - reflexivity.
  - reflexivity.
Defined.

(** X18 at: the second entry of a configured list, asked for without its slash. *)
Lemma configured_second_entry_admitted :
  origin_callback (Some (js "https://app.example.com, https://b.test/"))
    (Some (js "https://b.test")) = Allow.
Proof.
  apply (configured_origin_admitted
           (Some (js "https://app.example.com, https://b.test/"))
           (js " https://b.test/") (js "https://b.test")).
  - apply list_elem_of_In. vm_compute. tauto.
  - vm_compute. discriminate.
  - vm_compute. reflexivity.
Defined.

(** X19 at: a configured list of blank entries admits a foreign origin. *)
Lemma blank_list_admits_foreign_origin :
  origin_callback (Some (js " , /")) (Some (js "http://evil.test")) = Allow.
Proof.
  apply (unconfigured_gate_admits_all (Some (js " , /")) (Some (js "http://evil.test"))).
  vm_compute. repeat constructor.
Defined.

(** X20 at: the origin [" / "] against a configured list. *)
Lemma lone_slash_origin_refused :
  origin_callback (Some (js "https://app.example.com")) (Some (js " / "))
  = Deny (js "Not allowed by CORS").
Proof.
  apply (blank_origin_refused (Some (js "https://app.example.com")) (js " / ")).
  - reflexivity.
  - discriminate.
  - reflexivity.
Defined.

(** X21 at: a configured origin with a slash and with a leading space. *)
Lemma same_verdict_slash_and_space :
  origin_callback (Some (js "https://app.example.com"))
    (Some (js "https://app.example.com/"))
  = origin_callback (Some (js "https://app.example.com"))
      (Some (js " https://app.example.com")).
Proof.
  apply (verdict_by_normalized_origin (Some (js "https://app.example.com"))
           (js "https://app.example.com/") (js " https://app.example.com")).
  - discriminate.
  - discriminate.
  - reflexivity.
Defined.

(** X2 at: a login without a network. *)
Lemma login_offline :
  run offline (login env alice secret) fresh =
    (with_request (login_request env alice secret) fresh,
     Fulfilled (VString (js "Failed to fetch"))).
Proof.
  apply (login_transport_failure offline env alice secret fresh
           (Error (js "Failed to fetch"))).
  left. reflexivity.
Defined.

(** X3 at: a login answered with [{}]. *)
Lemma login_forgetful :
  let final := run forgetful (login env alice secret) fresh in
  localStorage (fst final) !! js "token" = Some (js "undefined")
  ∧ requests (fst final)
    = requests fresh ++ [login_request env alice secret;
                         current_user_request env VUndefined]
  ∧ headers (current_user_request env VUndefined)
    = [(js "Authorization", js "Bearer undefined")].
Proof.
  apply (login_without_token_stores_undefined forgetful env alice secret fresh
           {| ok := true; json := Fulfilled (VObject ∅) |} ∅);
    vm_compute; reflexivity.
Defined.

(** X5 at: a registration refused with a message. *)
Lemma register_refusing :
  run refusing (register env newcomer) fresh =
    (with_request (register_request env newcomer) fresh,
     Fulfilled (VString (js "bad creds"))).
Proof.
  rewrite (register_rejected refusing env newcomer fresh
             {| ok := false;
                json := Fulfilled (VObject {[ js "message" := VString (js "bad creds") ]}) |}
             eq_refl eq_refl eq_refl).
  reflexivity.
Defined.

(** X6 at: a restore with a token the server accepts. *)
Lemma restore_remembering :
  let final := run accepting (restore env) remembering in
  user (fst final) = profile
  ∧ localStorage (fst final) = localStorage remembering
  ∧ requests (fst final)
    = requests remembering ++ [current_user_request env (VString (js "abc"))]
  ∧ navigations (fst final) = navigations remembering
  ∧ snd final = Fulfilled tt.
Proof.
  apply (restore_accepts_token accepting env remembering (js "abc") profile).
  - vm_compute. reflexivity.
  - discriminate.
  - vm_compute. reflexivity.
Defined.

(** X8 at: a restore over an empty token. *)
Lemma restore_blank_token :
  let final := run accepting (restore env) blank_token in
  user (fst final) = VNull
  ∧ requests (fst final) = requests blank_token
  ∧ localStorage (fst final) !! js "token" = Some (js "")
  ∧ snd final = Fulfilled tt.
Proof.
  apply (restore_empty_token accepting env blank_token). vm_compute. reflexivity.
Defined.


(** X10 at: a login, then a reload. *)
Lemma login_accepting_then_reload :
  user (fst (run accepting (restore env)
               (reloaded (fst (run accepting (login env alice secret) fresh)))))
  = user (fst (run accepting (login env alice secret) fresh))
  ∧ localStorage (fst (run accepting (restore env)
                         (reloaded (fst (run accepting (login env alice secret) fresh)))))
    = localStorage (reloaded (fst (run accepting (login env alice secret) fresh))).
Proof.
  apply (login_then_reload accepting env alice secret fresh
           (reloaded (fst (run accepting (login env alice secret) fresh))) (js "abc")).
  - vm_compute. reflexivity.
  - vm_compute. reflexivity.
  - discriminate.
  - reflexivity.
Defined.

(** X11 at: a logout, then a reload. *)
Lemma logout_returning_then_reload :
  run accepting (restore env) (reloaded (fst (run accepting logout returning)))
  = (with_user VNull (reloaded (fst (run accepting logout returning))), Fulfilled tt).
Proof.
  apply (logout_then_reload accepting env returning
           (reloaded (fst (run accepting logout returning)))).
  reflexivity.
Defined.

(** X12 at: the identity request, accepted. *)
Lemma fetchCurrentUser_accepting :
  run accepting (fetchCurrentUser env (VString (js "abc"))) fresh =
    (with_request (current_user_request env (VString (js "abc"))) fresh,
     Fulfilled profile).
Proof.
  rewrite (fetchCurrentUser_reads_user accepting env (VString (js "abc")) fresh
             {| ok := true; json := Fulfilled (VObject {[ js "user" := profile ]}) |}
             {[ js "user" := profile ]} eq_refl eq_refl eq_refl).
  vm_compute. reflexivity.
Defined.

(** X13 at: the identity request, refused with a message. *)
Lemma fetchCurrentUser_refusing :
  run refusing (fetchCurrentUser env (VString (js "stale"))) fresh =
    (with_request (current_user_request env (VString (js "stale"))) fresh,
     Rejected (Error (js "bad creds"))).
Proof.
  rewrite (fetchCurrentUser_rejection refusing env (VString (js "stale")) fresh
             {| ok := false;
                json := Fulfilled (VObject {[ js "message" := VString (js "bad creds") ]}) |}
             eq_refl eq_refl eq_refl).
  - reflexivity.
  - intros m [= <-]. now exists (js "bad creds").
Defined.

End MoreSessions.
